(** * Magic Mouse 2 gesture driver: report decoder and swipe detector

    A shallow embedding of [magic_mouse_gestures.py]:
    - [parse_touch]    (one 8-byte touch block -> [Touch]),
    - [parse_report]   (one HID report -> list of active touches),
    - [detect_gesture] (the swipe state machine over [GestureState]).

    Python integers are unbounded, so they are [Z]; a [bytes] object is a
    [list byte]; the timestamps returned by [time.time()] are IEEE-754
    binary64 numbers, so they are Rocq's primitive [float]s.  Python
    exceptions are explicit: every function that can raise returns a
    [result]. *)

From Stdlib Require Import Strings.String Strings.Byte ZArith List Bool Lia.
From Stdlib Require Import DecimalString.
From Stdlib Require Import PrimFloat SpecFloat FloatOps FloatAxioms.
Import ListNotations.

Set Warnings "-inexact-float".
Local Open Scope Z_scope.

(** ** Exceptions *)

Inductive exn : Type :=
| IndexError   (* sequence index out of range *)
| TypeError.   (* arithmetic on [None] *)

Inductive result (A : Type) : Type :=
| Ok (a : A)
| Raise (e : exn).
Arguments Ok {A} a.
Arguments Raise {A} e.

Definition bind {A B : Type} (m : result A) (k : A -> result B) : result B :=
  match m with
  | Ok a => k a
  | Raise e => Raise e
  end.

Notation "x <- m ;; k" := (bind m (fun x => k))
  (at level 61, m at next level, right associativity).

(** ** Python sequences *)

Definition bytes := list byte.

(** The integer a [bytes] object yields at one position. *)
Definition byte_val (b : byte) : Z := Z.of_N (Byte.to_N b).

Definition len {A : Type} (l : list A) : Z := Z.of_nat (length l).

(** How a slice bound is normalised against a sequence of length [n]:
    a negative bound counts from the end, and the result is clamped to
    [0 .. n]. *)
Definition slice_bound (n i : Z) : Z :=
  if i <? 0 then Z.max 0 (i + n) else Z.min i n.

(** [l[lo:hi]]; never raises. *)
Definition slice {A : Type} (l : list A) (lo hi : Z) : list A :=
  let a := slice_bound (len l) lo in
  let b := slice_bound (len l) hi in
  firstn (Z.to_nat (b - a)) (skipn (Z.to_nat a) l).

(** [tdata[i]] for a literal index [i >= 0]. *)
Definition getitem (tdata : bytes) (i : nat) : result Z :=
  match nth_error tdata i with
  | Some b => Ok (byte_val b)
  | None => Raise IndexError
  end.

(** ** Data model *)

Module Touch.
(** Single touch point on the Magic Mouse surface. *)
Record t : Type := mk {
    id : Z;
    x : Z;
    y : Z;
    major : Z;
    minor : Z;
    size : Z;
    orientation : Z;
    state : Z
}.
End Touch.

Module GestureState.
(** Tracks ongoing gesture state. *)
Record t : Type := mk {
    start_x : option Z;
    start_y : option Z;
    start_time : option float;
    finger_count : Z;
    last_gesture_time : float
}.

(** [GestureState()]: the dataclass defaults. *)
Definition default : t := mk None None None 0 0%float.
End GestureState.

(** Gesture detection thresholds. *)
Definition SWIPE_THRESHOLD : Z := 200.
Definition SWIPE_TIME_MAX : float := 0.4%float.

(** ** The touch decoder *)

Definition parse_touch (data : bytes) (offset : Z) : result Touch.t :=
  let tdata := slice data offset (offset + 8) in
  t0 <- getitem tdata 0 ;;
  t1 <- getitem tdata 1 ;;
  let x := Z.lor t0 (Z.shiftl (Z.land t1 0x0F) 8) in
  t2 <- getitem tdata 2 ;;
  let y := Z.lor t2 (Z.shiftl (Z.land t1 0xF0) 4) in
  major <- getitem tdata 3 ;;
  minor <- getitem tdata 4 ;;
  t5 <- getitem tdata 5 ;;
  let size := Z.land t5 0x3F in
  let id_lsb := Z.land (Z.shiftr t5 6) 0x03 in
  t6 <- getitem tdata 6 ;;
  let id_msb := Z.land t6 0x03 in
  let touch_id := Z.lor id_lsb (Z.shiftl id_msb 2) in
  let orientation := Z.land (Z.shiftr t6 2) 0x3F in
  t7 <- getitem tdata 7 ;;
  let state := Z.land (Z.shiftr t7 4) 0x0F in
  Ok (Touch.mk touch_id x y major minor size orientation state).

(** ** The report decoder *)

(** One iteration of the [for i in range(num_fingers)] loop body, on the
    accumulator [touches]. *)
Definition parse_report_step (data : bytes) (touches : list Touch.t) (i : Z)
  : result (list Touch.t) :=
  let offset := 14 + i * 8 in
  if offset + 8 <=? len data then
    touch <- parse_touch data offset ;;
    if (Touch.state touch >? 0) || (Touch.size touch >? 0)
    then Ok (touches ++ [touch])
    else Ok touches
  else Ok touches.

(** A [for] loop over a list of indices, threading the accumulator and
    stopping at the first exception. *)
Fixpoint for_each {S : Type} (body : S -> Z -> result S) (idx : list Z) (s : S)
  : result S :=
  match idx with
  | [] => Ok s
  | i :: rest => s' <- body s i ;; for_each body rest s'
  end.

(** [range(n)]: empty when [n <= 0]. *)
Definition range (n : Z) : list Z :=
  map Z.of_nat (seq 0 (Z.to_nat n)).

Definition parse_report (data : bytes) : result (list Touch.t) :=
  if len data <? 14 then Ok []
  else
    let num_fingers := (len data - 14) / 8 in
    for_each (parse_report_step data) (range num_fingers) [].

(** ** The gesture detector *)

(** Field assignments [state.f = v]. *)
Definition set_start_x (v : option Z) (s : GestureState.t) : GestureState.t :=
  GestureState.mk v (GestureState.start_y s) (GestureState.start_time s)
    (GestureState.finger_count s) (GestureState.last_gesture_time s).
Definition set_start_y (v : option Z) (s : GestureState.t) : GestureState.t :=
  GestureState.mk (GestureState.start_x s) v (GestureState.start_time s)
    (GestureState.finger_count s) (GestureState.last_gesture_time s).
Definition set_start_time (v : option float) (s : GestureState.t) : GestureState.t :=
  GestureState.mk (GestureState.start_x s) (GestureState.start_y s) v
    (GestureState.finger_count s) (GestureState.last_gesture_time s).
Definition set_finger_count (v : Z) (s : GestureState.t) : GestureState.t :=
  GestureState.mk (GestureState.start_x s) (GestureState.start_y s)
    (GestureState.start_time s) v (GestureState.last_gesture_time s).
Definition set_last_gesture_time (v : float) (s : GestureState.t) : GestureState.t :=
  GestureState.mk (GestureState.start_x s) (GestureState.start_y s)
    (GestureState.start_time s) (GestureState.finger_count s) v.

(** [sum(...)]: left to right, from 0. *)
Definition sum (l : list Z) : Z := fold_left Z.add l 0.

(** Reading an [Optional] field as an operand of [-]: [None] raises. *)
Definition operand {A : Type} (o : option A) : result A :=
  match o with
  | Some a => Ok a
  | None => Raise TypeError
  end.

(** [detect_gesture(touches, state)].  The clock reading [time.time()] of
    the first line is the argument [now]; the mutated [state] is returned
    next to the function's value ([None] or the gesture name). *)
Definition detect_gesture (touches : list Touch.t) (now : float)
    (state : GestureState.t) : result (option string * GestureState.t) :=
  if (now - GestureState.last_gesture_time state <? 0.5)%float then
    Ok (None, state)
  else
    match touches with
    | [] =>
        let state := set_start_x None state in
        let state := set_start_y None state in
        let state := set_start_time None state in
        let state := set_finger_count 0 state in
        Ok (None, state)
    | _ :: _ =>
        let avg_x := sum (map Touch.x touches) / len touches in
        let avg_y := sum (map Touch.y touches) / len touches in
        match GestureState.start_x state with
        | None =>
            let state := set_start_x (Some avg_x) state in
            let state := set_start_y (Some avg_y) state in
            let state := set_start_time (Some now) state in
            let state := set_finger_count (len touches) state in
            Ok (None, state)
        | Some start_x =>
            let delta_x := avg_x - start_x in
            start_y <- operand (GestureState.start_y state) ;;
            let delta_y := avg_y - start_y in
            start_time <- operand (GestureState.start_time state) ;;
            let elapsed := (now - start_time)%float in
            let after_classification :=
              if (SWIPE_TIME_MAX <? elapsed)%float then
                let state := set_start_x (Some avg_x) state in
                let state := set_start_y (Some avg_y) state in
                let state := set_start_time (Some now) state in
                Ok (None, state)
              else Ok (None, state) in
            if (elapsed <? SWIPE_TIME_MAX)%float
               && (Z.abs delta_x >? SWIPE_THRESHOLD) then
              if Z.abs delta_x >? Z.abs delta_y * 2 then
                let gesture :=
                  if delta_x >? 0 then "swipe_right"%string
                  else "swipe_left"%string in
                let state := set_start_x None state in
                let state := set_start_y None state in
                let state := set_start_time None state in
                let state := set_last_gesture_time now state in
                Ok (Some gesture, state)
              else after_classification
            else after_classification
        end
    end.

(** The driver loop of [main], restricted to the detector: one call per
    poll, each with its own clock reading, on the one shared state. *)
Fixpoint detect_all (polls : list (list Touch.t * float)) (state : GestureState.t)
  : result (list (option string) * GestureState.t) :=
  match polls with
  | [] => Ok ([], state)
  | (touches, now) :: rest =>
      r <- detect_gesture touches now state ;;
      rs <- detect_all rest (snd r) ;;
      Ok (fst r :: fst rs, snd rs)
  end.

(** ** Vocabulary of the statements *)

(** The block of at most 8 bytes that [parse_touch] reads at [offset]. *)
Definition block (data : bytes) (offset : Z) : bytes :=
  slice data offset (offset + 8).

(** The integer at position [i] of a block (0 past its end). *)
Definition byte_at (tdata : bytes) (i : nat) : Z :=
  byte_val (nth i tdata x00).

Arguments byte_val : simpl never.

(** The declared bit widths of the fields of a [Touch]. *)
Definition in_declared_ranges (t : Touch.t) : Prop :=
  0 <= Touch.x t <= 4095 /\ 0 <= Touch.y t <= 4095 /\
  0 <= Touch.major t <= 255 /\ 0 <= Touch.minor t <= 255 /\
  0 <= Touch.size t <= 63 /\ 0 <= Touch.orientation t <= 63 /\
  0 <= Touch.id t <= 15 /\ 0 <= Touch.state t <= 15.

(** The test that keeps a decoded touch in a report. *)
Definition active (t : Touch.t) : bool :=
  (Touch.state t >? 0) || (Touch.size t >? 0).

(** The number of whole touch blocks after the 14-byte header, and where
    block [i] starts. *)
Definition num_slots (data : bytes) : Z := (len data - 14) / 8.
Definition slot_offset (i : Z) : Z := 14 + i * 8.

(** The offsets the loop of [parse_report] visits, in order. *)
Definition slot_offsets (data : bytes) : list Z :=
  map slot_offset (range (num_slots data)).

(** The touch decoder applied to the block at [offset], as a list: one
    touch, or none where the decoder raises. *)
Definition decode_at (data : bytes) (offset : Z) : list Touch.t :=
  match parse_touch (block data offset) 0 with
  | Ok t => [t]
  | Raise _ => []
  end.

(** Every slot of a report decoded, in ascending offset order, before the
    filter. *)
Definition decoded_slots (data : bytes) : list Touch.t :=
  flat_map (decode_at data) (slot_offsets data).

(** The offsets at which the loop of [parse_report] calls [parse_touch]:
    the same loop and the same guard, recording the calls. *)
Definition parse_report_calls (data : bytes) : list Z :=
  if len data <? 14 then []
  else
    let num_fingers := (len data - 14) / 8 in
    flat_map (fun i =>
                let offset := 14 + i * 8 in
                if offset + 8 <=? len data then [offset] else [])
             (range num_fingers).

(** ** Sample reports *)

(** One touch block: x = 0x234, y = 0x178, major 5, minor 4, size 7,
    id 7, orientation 3, state 4. *)
Definition sample_block : bytes :=
  [x34; x12; x78; x05; x04; xc7; x0d; x40].

(** A padding block: every field decodes to 0. *)
Definition zero_block : bytes :=
  [x00; x00; x00; x00; x00; x00; x00; x00].

Definition sample_header : bytes :=
  [x12; x00; x00; x00; x00; x00; x00; x00; x00; x00; x00; x00; x00; x00].

(** Header and two active blocks (with the same id), 30 bytes. *)
Definition sample_report : bytes :=
  sample_header ++ sample_block ++ sample_block.

(** ** Vocabulary for the detector *)

(** The floor-mean centroid that [detect_gesture] computes. *)
Definition avg_x (touches : list Touch.t) : Z :=
  sum (map Touch.x touches) / len touches.
Definition avg_y (touches : list Touch.t) : Z :=
  sum (map Touch.y touches) / len touches.

(** The anchor of a state is the triple of its three [start_*] fields. *)
Definition anchored (s : GestureState.t) (ax ay : Z) (at_ : float) : Prop :=
  GestureState.start_x s = Some ax /\
  GestureState.start_y s = Some ay /\
  GestureState.start_time s = Some at_.

Definition no_anchor (s : GestureState.t) : Prop :=
  GestureState.start_x s = None /\
  GestureState.start_y s = None /\
  GestureState.start_time s = None.

(** The three fields are all absent or all present. *)
Definition anchor_wf (s : GestureState.t) : Prop :=
  no_anchor s \/ exists ax ay at_, anchored s ax ay at_.

(** The cooldown gate of [detect_gesture] lets the call through. *)
Definition cooldown_passed (now : float) (s : GestureState.t) : Prop :=
  (now - GestureState.last_gesture_time s <? 0.5)%float = false.

(** The condition for a swipe: elapsed < 0.4 and |dx| > 200 and
    |dx| > 2 * |dy|. *)
Definition swipe_condition (dx dy : Z) (elapsed : float) : bool :=
  (elapsed <? 0.4)%float && (Z.abs dx >? 200) && (Z.abs dx >? 2 * Z.abs dy).

(** A touch at a given position (the other fields as in [sample_block]). *)
Definition touch_at (px py : Z) : Touch.t :=
  Touch.mk 7 px py 5 4 7 3 4.

(** A state with an anchor set by one finger. *)
Definition anchored_state (ax ay : Z) (at_ lgt : float) : GestureState.t :=
  GestureState.mk (Some ax) (Some ay) (Some at_) 1 lgt.

(** A report with a trailing partial block of three bytes. *)
Definition ragged_report : bytes := sample_report ++ [x01; x02; x03].

(** ** One iteration of the driver loop *)

(** What [os.read(fd, 64)] gives: [OSError], or the bytes read. *)
Inductive read_outcome : Type :=
| ReadFailed
| ReadBytes (data : bytes).

(** What the environment answers during one iteration: the read, the
    clock reading taken by [detect_gesture], and the value [send_key]
    returns if it is called. *)
Record answers : Type := mk_answers {
  read : read_outcome;
  clock : float;
  key_sent : bool
}.

(** What an iteration does to the outside: calls of [send_key] and of
    [print], in order. *)
Inductive output : Type :=
| SendKey (modifier key : string)
| Print (line : string).

(** [str(n)] for an integer. *)
Definition str (n : Z) : string := NilZero.string_of_int (Z.to_int n).

(** [f"Touch: id={t.id} x={t.x} y={t.y} state={t.state}"]. *)
Definition debug_line (t : Touch.t) : string :=
  ("Touch: id=" ++ str (Touch.id t) ++ " x=" ++ str (Touch.x t)
   ++ " y=" ++ str (Touch.y t) ++ " state=" ++ str (Touch.state t))%string.

(** [gesture == "..."], where [gesture] may be [None]. *)
Definition gesture_is (gesture : option string) (name : string) : bool :=
  match gesture with
  | Some g => String.eqb g name
  | None => false
  end.

(** The body of the [while True] loop of [main], on the module constant
    [DEBUG] and the shared [state]. *)
Definition main_iteration (DEBUG : bool) (env : answers) (state : GestureState.t)
  : result (list output * GestureState.t) :=
  match read env with
  | ReadFailed => Ok ([], state)
  | ReadBytes [] => Ok ([], state)
  | ReadBytes data =>
      touches <- parse_report data ;;
      let debug :=
        if DEBUG && negb (len touches =? 0)
        then map (fun t => Print (debug_line t)) touches
        else [] in
      r <- detect_gesture touches (clock env) state ;;
      let gesture := fst r in
      let state := snd r in
      if gesture_is gesture "swipe_left" then
        Ok (debug ++ SendKey "alt" "Right"
                  :: (if key_sent env then [Print "→ Forward"%string] else []),
            state)
      else if gesture_is gesture "swipe_right" then
        Ok (debug ++ SendKey "alt" "Left"
                  :: (if key_sent env then [Print "← Back"%string] else []),
            state)
      else Ok (debug, state)
  end.

(** The loop, for as many iterations as there are answers. *)
Fixpoint main_loop (DEBUG : bool) (envs : list answers) (state : GestureState.t)
  : result (list output * GestureState.t) :=
  match envs with
  | [] => Ok ([], state)
  | env :: rest =>
      r <- main_iteration DEBUG env state ;;
      rs <- main_loop DEBUG rest (snd r) ;;
      Ok (fst r ++ fst rs, snd rs)
  end.

(** ** Vocabulary for the further properties *)

(** The byte with a given value (0 outside 0..255). *)
Definition byte_of_Z (z : Z) : byte :=
  match Byte.of_N (Z.to_N z) with
  | Some b => b
  | None => x00
  end.

(** A block that carries the fields of a touch, with the reserved low
    half of byte 7 set to 0.  Not part of the driver: the inverse that
    the decoder is measured against. *)
Definition encode_touch (t : Touch.t) : bytes :=
  [byte_of_Z (Touch.x t mod 256);
   byte_of_Z (Touch.x t / 256 + 16 * (Touch.y t / 256));
   byte_of_Z (Touch.y t mod 256);
   byte_of_Z (Touch.major t);
   byte_of_Z (Touch.minor t);
   byte_of_Z (Touch.size t + 64 * (Touch.id t mod 4));
   byte_of_Z (Touch.id t / 4 + 4 * Touch.orientation t);
   byte_of_Z (16 * Touch.state t)].

(** The clock readings of the calls of a run that returned a gesture. *)
Fixpoint emission_times (polls : list (list Touch.t * float))
    (results : list (option string)) : list float :=
  match polls, results with
  | (_, now) :: polls', Some _ :: results' =>
      now :: emission_times polls' results'
  | _ :: polls', None :: results' => emission_times polls' results'
  | _, _ => []
  end.

(** Each reading is not within 0.5 of the one before it, in the
    arithmetic of the cooldown gate. *)
Fixpoint spaced (last : float) (times : list float) : Prop :=
  match times with
  | [] => True
  | t :: rest => (t - last <? 0.5)%float = false /\ spaced t rest
  end.

(** The last reading of a list, or [last] if there is none. *)
Fixpoint last_time (last : float) (times : list float) : float :=
  match times with
  | [] => last
  | t :: rest => last_time t rest
  end.

(** The five ways a call can go, for any state. *)
Inductive detect_case (touches : list Touch.t) (now : float)
    (st : GestureState.t) : result (option string * GestureState.t) -> Prop :=
| case_cooldown :
    (now - GestureState.last_gesture_time st <? 0.5)%float = true ->
    detect_case touches now st (Ok (None, st))
| case_reset :
    cooldown_passed now st -> touches = [] ->
    detect_case touches now st
      (Ok (None, GestureState.mk None None None 0
                   (GestureState.last_gesture_time st)))
| case_establish :
    cooldown_passed now st -> touches <> [] ->
    GestureState.start_x st = None ->
    detect_case touches now st
      (Ok (None, GestureState.mk (Some (avg_x touches)) (Some (avg_y touches))
                   (Some now) (len touches)
                   (GestureState.last_gesture_time st)))
| case_broken (ax : Z) :
    cooldown_passed now st -> touches <> [] ->
    GestureState.start_x st = Some ax ->
    GestureState.start_y st = None \/ GestureState.start_time st = None ->
    detect_case touches now st (Raise TypeError)
| case_swipe (ax ay : Z) (at_ : float) :
    cooldown_passed now st -> touches <> [] -> anchored st ax ay at_ ->
    swipe_condition (avg_x touches - ax) (avg_y touches - ay) (now - at_)%float
      = true ->
    detect_case touches now st
      (Ok (Some (if avg_x touches - ax >? 0
                 then "swipe_right"%string else "swipe_left"%string),
           GestureState.mk None None None (GestureState.finger_count st) now))
| case_rebase (ax ay : Z) (at_ : float) :
    cooldown_passed now st -> touches <> [] -> anchored st ax ay at_ ->
    swipe_condition (avg_x touches - ax) (avg_y touches - ay) (now - at_)%float
      = false ->
    (0.4 <? now - at_)%float = true ->
    detect_case touches now st
      (Ok (None, GestureState.mk (Some (avg_x touches)) (Some (avg_y touches))
                   (Some now) (GestureState.finger_count st)
                   (GestureState.last_gesture_time st)))
| case_wait (ax ay : Z) (at_ : float) :
    cooldown_passed now st -> touches <> [] -> anchored st ax ay at_ ->
    swipe_condition (avg_x touches - ax) (avg_y touches - ay) (now - at_)%float
      = false ->
    (0.4 <? now - at_)%float = false ->
    detect_case touches now st (Ok (None, st)).

(** The calls of [send_key] among the outputs of an iteration. *)
Definition is_send_key (o : output) : bool :=
  match o with
  | SendKey _ _ => true
  | Print _ => false
  end.

Definition key_calls (outs : list output) : list output :=
  filter is_send_key outs.

(** A report with one touch at a given position. *)
Definition report_at (px py : Z) : bytes :=
  sample_header ++ encode_touch (touch_at px py).

(** * Properties *)

(** ** Bit-field arithmetic *)

Lemma byte_val_range (b : byte) : 0 <= byte_val b < 256.
Proof.
  unfold byte_val. pose proof (Byte.to_N_bounded b). lia.
Qed.

Lemma log2_lt_of_lt_pow2 (a n : Z) : 0 < n -> 0 <= a < 2 ^ n -> Z.log2 a < n.
Proof.
  intros Hn [H0 Ha].
  destruct (Z.eq_dec a 0) as [-> | Hne]; [simpl; lia |].
  apply Z.log2_lt_pow2; lia.
Qed.

Lemma lt_pow2_of_log2_lt (a n : Z) : 0 < n -> 0 <= a -> Z.log2 a < n -> a < 2 ^ n.
Proof.
  intros Hn H0 Hl.
  destruct (Z.eq_dec a 0) as [-> | Hne].
  - apply Z.pow_pos_nonneg; lia.
  - apply Z.log2_lt_pow2; lia.
Qed.

(** Masking with a non-negative mask below [2^n] leaves [n] bits. *)
Lemma land_range (a m n : Z) :
  0 < n -> 0 <= a -> 0 <= m < 2 ^ n -> 0 <= Z.land a m < 2 ^ n.
Proof.
  intros Hn Ha Hm. split.
  - apply Z.land_nonneg; lia.
  - apply lt_pow2_of_log2_lt; [lia | apply Z.land_nonneg; lia |].
    pose proof (Z.log2_land a m Ha (proj1 Hm)).
    pose proof (log2_lt_of_lt_pow2 m n Hn Hm). lia.
Qed.

(** Or-ing two [n]-bit numbers gives an [n]-bit number. *)
Lemma lor_range (a b n : Z) :
  0 < n -> 0 <= a < 2 ^ n -> 0 <= b < 2 ^ n -> 0 <= Z.lor a b < 2 ^ n.
Proof.
  intros Hn Ha Hb. split.
  - apply Z.lor_nonneg; lia.
  - apply lt_pow2_of_log2_lt; [lia | apply Z.lor_nonneg; lia |].
    rewrite Z.log2_lor by lia.
    pose proof (log2_lt_of_lt_pow2 a n Hn Ha).
    pose proof (log2_lt_of_lt_pow2 b n Hn Hb). lia.
Qed.

Lemma shiftl_range (a k n : Z) :
  0 <= k -> 0 <= n -> 0 <= a < 2 ^ n -> 0 <= Z.shiftl a k < 2 ^ (n + k).
Proof.
  intros Hk Hn Ha. rewrite Z.shiftl_mul_pow2 by lia.
  rewrite Z.pow_add_r by lia.
  assert (0 < 2 ^ k) by (apply Z.pow_pos_nonneg; lia). nia.
Qed.

Lemma shiftr_nonneg (a k : Z) : 0 <= a -> 0 <= Z.shiftr a k.
Proof. intros Ha. apply Z.shiftr_nonneg. exact Ha. Qed.

(** ** The touch decoder *)

(** What [parse_touch] computes on a block given byte by byte. *)
Lemma parse_touch_bytes (b0 b1 b2 b3 b4 b5 b6 b7 : byte) :
  parse_touch [b0; b1; b2; b3; b4; b5; b6; b7] 0 =
  Ok (Touch.mk
        (Z.lor (Z.land (Z.shiftr (byte_val b5) 6) 0x03)
               (Z.shiftl (Z.land (byte_val b6) 0x03) 2))
        (Z.lor (byte_val b0) (Z.shiftl (Z.land (byte_val b1) 0x0F) 8))
        (Z.lor (byte_val b2) (Z.shiftl (Z.land (byte_val b1) 0xF0) 4))
        (byte_val b3) (byte_val b4)
        (Z.land (byte_val b5) 0x3F)
        (Z.land (Z.shiftr (byte_val b6) 2) 0x3F)
        (Z.land (Z.shiftr (byte_val b7) 4) 0x0F)).
Proof. reflexivity. Qed.

(** C2. For every 8-byte block, [parse_touch] returns a [Touch] (it does
    not raise) whose fields are exactly
    x = byte0 | ((byte1 & 0x0F) << 8), y = byte2 | ((byte1 & 0xF0) << 4),
    major = byte3, minor = byte4, size = byte5 & 0x3F,
    id = ((byte5 >> 6) & 0x03) | ((byte6 & 0x03) << 2),
    orientation = (byte6 >> 2) & 0x3F, state = (byte7 >> 4) & 0x0F,
    and every field lies in its declared range: x, y in 0..4095, major and
    minor in 0..255, size and orientation in 0..63, id and state in 0..15. *)
Theorem parse_touch_total_fields_ranges (tdata : bytes) :
  length tdata = 8%nat ->
  exists t : Touch.t,
    parse_touch tdata 0 = Ok t /\
    Touch.x t = Z.lor (byte_at tdata 0) (Z.shiftl (Z.land (byte_at tdata 1) 0x0F) 8) /\
    Touch.y t = Z.lor (byte_at tdata 2) (Z.shiftl (Z.land (byte_at tdata 1) 0xF0) 4) /\
    Touch.major t = byte_at tdata 3 /\
    Touch.minor t = byte_at tdata 4 /\
    Touch.size t = Z.land (byte_at tdata 5) 0x3F /\
    Touch.id t = Z.lor (Z.land (Z.shiftr (byte_at tdata 5) 6) 0x03)
                       (Z.shiftl (Z.land (byte_at tdata 6) 0x03) 2) /\
    Touch.orientation t = Z.land (Z.shiftr (byte_at tdata 6) 2) 0x3F /\
    Touch.state t = Z.land (Z.shiftr (byte_at tdata 7) 4) 0x0F /\
    in_declared_ranges t.
Proof.
  intros Hlen.
  destruct tdata as [| c0 [| c1 [| c2 [| c3 [| c4 [| c5 [| c6 [| c7 [| c8 rest]]]]]]]]];
    try discriminate Hlen.
  eexists. split; [apply parse_touch_bytes |].
  unfold byte_at; cbn [nth Touch.x Touch.y Touch.major Touch.minor Touch.size
                        Touch.id Touch.orientation Touch.state].
  repeat (split; [reflexivity |]).
  unfold in_declared_ranges;
    cbn [Touch.x Touch.y Touch.major Touch.minor Touch.size
         Touch.id Touch.orientation Touch.state].
  pose proof (byte_val_range c0) as R0. pose proof (byte_val_range c1) as R1.
  pose proof (byte_val_range c2) as R2. pose proof (byte_val_range c3) as R3.
  pose proof (byte_val_range c4) as R4. pose proof (byte_val_range c5) as R5.
  pose proof (byte_val_range c6) as R6. pose proof (byte_val_range c7) as R7.
  assert (Hx : 0 <= Z.lor (byte_val c0) (Z.shiftl (Z.land (byte_val c1) 0x0F) 8) < 2 ^ 12).
  { apply lor_range; [lia | lia |].
    apply (shiftl_range _ 8 4); try lia. apply land_range; lia. }
  assert (Hy : 0 <= Z.lor (byte_val c2) (Z.shiftl (Z.land (byte_val c1) 0xF0) 4) < 2 ^ 12).
  { apply lor_range; [lia | lia |].
    apply (shiftl_range _ 4 8); try lia. apply land_range; lia. }
  assert (Hsize : 0 <= Z.land (byte_val c5) 0x3F < 2 ^ 6)
    by (apply land_range; lia).
  assert (Hor : 0 <= Z.land (Z.shiftr (byte_val c6) 2) 0x3F < 2 ^ 6)
    by (apply land_range; [lia | apply shiftr_nonneg; lia | lia]).
  assert (Hst : 0 <= Z.land (Z.shiftr (byte_val c7) 4) 0x0F < 2 ^ 4)
    by (apply land_range; [lia | apply shiftr_nonneg; lia | lia]).
  assert (Hid : 0 <= Z.lor (Z.land (Z.shiftr (byte_val c5) 6) 0x03)
                           (Z.shiftl (Z.land (byte_val c6) 0x03) 2) < 2 ^ 4).
  { apply lor_range; [lia | |].
    - assert (0 <= Z.land (Z.shiftr (byte_val c5) 6) 0x03 < 2 ^ 2)
        by (apply land_range; [lia | apply shiftr_nonneg; lia | lia]).
      lia.
    - apply (shiftl_range _ 2 2); try lia. apply land_range; lia. }
  change (2 ^ 12) with 4096 in *. change (2 ^ 6) with 64 in *.
  change (2 ^ 4) with 16 in *.
  repeat split; lia.
Qed.

(** ** Slices *)

Lemma len_nonneg {A : Type} (l : list A) : 0 <= len l.
Proof. unfold len. lia. Qed.

Lemma slice_length_le {A : Type} (l : list A) (lo hi : Z) :
  lo <= hi -> len (slice l lo hi) <= hi - lo.
Proof.
  intros Hlh. unfold slice, len.
  pose proof (firstn_le_length
                (Z.to_nat (slice_bound (Z.of_nat (length l)) hi -
                           slice_bound (Z.of_nat (length l)) lo))
                (skipn (Z.to_nat (slice_bound (Z.of_nat (length l)) lo)) l)) as Hle.
  revert Hle. unfold slice_bound.
  destruct (Z.ltb_spec lo 0); destruct (Z.ltb_spec hi 0); lia.
Qed.

(** Inside the sequence a slice is the plain sub-list. *)
Lemma slice_in_bounds {A : Type} (l : list A) (lo hi : Z) :
  0 <= lo -> lo <= hi -> hi <= len l ->
  slice l lo hi = firstn (Z.to_nat (hi - lo)) (skipn (Z.to_nat lo) l).
Proof.
  intros H0 Hle Hhi. unfold slice, slice_bound.
  destruct (Z.ltb_spec lo 0); [lia |].
  destruct (Z.ltb_spec hi 0); [lia |].
  rewrite !Z.min_l by lia. reflexivity.
Qed.

Lemma slice_in_bounds_length {A : Type} (l : list A) (lo hi : Z) :
  0 <= lo -> lo <= hi -> hi <= len l ->
  len (slice l lo hi) = hi - lo.
Proof.
  intros H0 Hle Hhi. rewrite slice_in_bounds by assumption.
  unfold len in *. rewrite length_firstn, length_skipn. lia.
Qed.

(** Slicing a whole short sequence gives it back. *)
Lemma slice_whole {A : Type} (l : list A) (n : Z) :
  len l <= n -> slice l 0 n = l.
Proof.
  intros Hn. pose proof (len_nonneg l) as Hl.
  unfold slice, slice_bound. cbn [Z.ltb Z.compare].
  destruct (Z.ltb_spec n 0); [lia |].
  rewrite (Z.min_l 0 (len l)) by lia. rewrite (Z.min_r n (len l)) by lia.
  cbn [Z.to_nat skipn]. rewrite Z.sub_0_r. unfold len.
  rewrite Nat2Z.id. apply firstn_all.
Qed.

(** ** Blocks *)

Lemma block_length_le (data : bytes) (offset : Z) : len (block data offset) <= 8.
Proof.
  unfold block. pose proof (slice_length_le data offset (offset + 8)). lia.
Qed.

Lemma block_in_bounds (data : bytes) (offset : Z) :
  0 <= offset -> offset + 8 <= len data ->
  length (block data offset) = 8%nat.
Proof.
  intros H0 H8. unfold block.
  pose proof (slice_in_bounds_length data offset (offset + 8)) as Hl.
  unfold len in Hl at 2. lia.
Qed.

(** [parse_touch] reads nothing but its block. *)
Lemma parse_touch_block (data : bytes) (offset : Z) :
  parse_touch data offset = parse_touch (block data offset) 0.
Proof.
  unfold parse_touch. change (0 + 8) with 8.
  rewrite (slice_whole (block data offset) 8) by apply block_length_le.
  reflexivity.
Qed.

Lemma parse_touch_ok (tdata : bytes) :
  length tdata = 8%nat -> exists t : Touch.t, parse_touch tdata 0 = Ok t.
Proof.
  intros Hlen.
  destruct tdata as [| c0 [| c1 [| c2 [| c3 [| c4 [| c5 [| c6 [| c7 [| c8 rest]]]]]]]]];
    try discriminate Hlen.
  eexists. apply parse_touch_bytes.
Qed.

(** A block that lies inside the buffer always decodes. *)
Lemma parse_touch_in_bounds (data : bytes) (offset : Z) :
  0 <= offset -> offset + 8 <= len data ->
  exists t : Touch.t,
    parse_touch data offset = Ok t /\ decode_at data offset = [t].
Proof.
  intros H0 H8.
  destruct (parse_touch_ok (block data offset) (block_in_bounds _ _ H0 H8)) as [t Ht].
  exists t. unfold decode_at. rewrite parse_touch_block, Ht. split; reflexivity.
Qed.

(** ** Ranges and slots *)

Lemma In_range (n i : Z) : In i (range n) <-> 0 <= i < n.
Proof.
  unfold range. rewrite in_map_iff. split.
  - intros [k [<- Hk]]. apply in_seq in Hk. lia.
  - intros Hi. exists (Z.to_nat i). split; [lia |]. apply in_seq. lia.
Qed.

Lemma length_range (n : Z) : len (range n) = Z.max 0 n.
Proof.
  unfold range, len. rewrite length_map, length_seq. lia.
Qed.

Lemma nth_error_range (n i : Z) :
  0 <= i < n -> nth_error (range n) (Z.to_nat i) = Some i.
Proof.
  intros Hi. unfold range. rewrite nth_error_map, nth_error_seq.
  destruct (Nat.ltb_spec (Z.to_nat i) (Z.to_nat n)); [| lia].
  cbn. f_equal. lia.
Qed.

(** A shorter range is a prefix of a longer one. *)
Lemma range_prefix (m n : Z) :
  m <= n -> exists more : list Z, range n = range m ++ more.
Proof.
  intros Hmn. unfold range.
  exists (map Z.of_nat (seq (Z.to_nat m) (Z.to_nat n - Z.to_nat m))).
  rewrite <- map_app, <- seq_app. do 2 f_equal. lia.
Qed.

(** Every slot the loop visits lies inside the buffer: the guard
    [offset + 8 <= len(data)] of the loop body never fails. *)
Lemma slot_in_bounds (data : bytes) (i : Z) :
  0 <= i < num_slots data ->
  0 <= slot_offset i /\ slot_offset i + 8 <= len data.
Proof.
  unfold num_slots, slot_offset. intros Hi.
  pose proof (Z.mul_div_le (len data - 14) 8 ltac:(lia)). lia.
Qed.

Lemma num_slots_short (data : bytes) : len data < 14 -> num_slots data < 0.
Proof.
  unfold num_slots. intros Hs. apply Z.div_lt_upper_bound; lia.
Qed.

Lemma num_slots_long (data : bytes) : 14 <= len data -> 0 <= num_slots data.
Proof.
  unfold num_slots. intros Hs. apply Z.div_pos; lia.
Qed.

Lemma range_nonpos (n : Z) : n <= 0 -> range n = [].
Proof.
  intros Hn. unfold range. replace (Z.to_nat n) with 0%nat by lia. reflexivity.
Qed.

(** ** The report decoder *)

(** The loop: over in-bounds slots it appends, in order, the active ones
    among the decoded blocks. *)
Lemma for_each_parse_report_step (data : bytes) (idx : list Z) :
  (forall i, In i idx -> 0 <= slot_offset i /\ slot_offset i + 8 <= len data) ->
  forall acc : list Touch.t,
    for_each (parse_report_step data) idx acc =
    Ok (acc ++ filter active (flat_map (decode_at data) (map slot_offset idx))).
Proof.
  induction idx as [| i idx IH]; intros Hin acc.
  - cbn. rewrite app_nil_r. reflexivity.
  - cbn [for_each map flat_map].
    destruct (Hin i (or_introl eq_refl)) as [H0 H8].
    destruct (parse_touch_in_bounds data (slot_offset i) H0 H8) as [t [Ht Hd]].
    unfold parse_report_step at 1. fold (slot_offset i).
    destruct (Z.leb_spec (slot_offset i + 8) (len data)); [| lia].
    rewrite Ht, Hd. cbn [bind app filter]. fold (active t).
    destruct (active t); cbn [bind].
    + rewrite IH by (intros j Hj; apply Hin; right; exact Hj).
      rewrite <- app_assoc. reflexivity.
    + rewrite IH by (intros j Hj; apply Hin; right; exact Hj).
      reflexivity.
Qed.

(** [parse_report] is the filter of the decoded slots; it never raises. *)
Lemma parse_report_filter (data : bytes) :
  parse_report data = Ok (filter active (decoded_slots data)).
Proof.
  unfold parse_report, decoded_slots, slot_offsets.
  destruct (Z.ltb_spec (len data) 14) as [Hs | Hl].
  - rewrite (range_nonpos (num_slots data))
      by (pose proof (num_slots_short data Hs); lia).
    reflexivity.
  - fold (num_slots data). rewrite for_each_parse_report_step.
    + reflexivity.
    + intros i Hi. apply slot_in_bounds. apply In_range. exact Hi.
Qed.

(** Each slot contributes exactly one decoded touch, at its own index. *)
Lemma flat_map_singletons {A B : Type} (f : A -> list B) (l : list A) :
  (forall a, In a l -> exists b, f a = [b]) ->
  length (flat_map f l) = length l /\
  forall (i : nat) (a : A), nth_error l i = Some a ->
    exists b, nth_error (flat_map f l) i = Some b /\ f a = [b].
Proof.
  induction l as [| a0 l IH]; intros Hf.
  - split; [reflexivity |]. intros [| i] a Hn; discriminate Hn.
  - destruct (Hf a0 (or_introl eq_refl)) as [b0 Hb0].
    destruct IH as [IHlen IHnth].
    { intros a Ha. apply Hf. right. exact Ha. }
    cbn [flat_map]. rewrite Hb0. cbn [app length]. split.
    + rewrite IHlen. reflexivity.
    + intros [| i] a Hn; cbn in Hn |- *.
      * injection Hn as <-. exists b0. split; [reflexivity | exact Hb0].
      * apply IHnth. exact Hn.
Qed.

Lemma decode_at_slot (data : bytes) (off : Z) :
  In off (slot_offsets data) -> exists t, decode_at data off = [t].
Proof.
  unfold slot_offsets. rewrite in_map_iff. intros [i [<- Hi]].
  apply In_range in Hi. destruct (slot_in_bounds data i Hi) as [H0 H8].
  destruct (parse_touch_in_bounds data _ H0 H8) as [t [_ Hd]].
  exists t. exact Hd.
Qed.

Lemma decoded_slots_length (data : bytes) :
  len (decoded_slots data) = Z.max 0 (num_slots data).
Proof.
  unfold decoded_slots, len.
  rewrite (proj1 (flat_map_singletons _ _ (decode_at_slot data))).
  unfold slot_offsets. rewrite length_map.
  apply (length_range (num_slots data)).
Qed.

Lemma decoded_slots_nth (data : bytes) (i : Z) :
  0 <= i < num_slots data ->
  exists t : Touch.t,
    nth_error (decoded_slots data) (Z.to_nat i) = Some t /\
    parse_touch (block data (slot_offset i)) 0 = Ok t.
Proof.
  intros Hi.
  destruct (proj2 (flat_map_singletons _ _ (decode_at_slot data))
              (Z.to_nat i) (slot_offset i)) as [t [Hn Hd]].
  { unfold slot_offsets. apply map_nth_error. apply nth_error_range. exact Hi. }
  exists t. split; [exact Hn |].
  unfold decode_at in Hd.
  destruct (parse_touch (block data (slot_offset i)) 0) as [t' | e];
    [injection Hd as ->; reflexivity | discriminate Hd].
Qed.

(** ** Truncated reports *)

Lemma len_firstn {A : Type} (m : nat) (l : list A) :
  len (firstn m l) = Z.min (Z.of_nat m) (len l).
Proof. unfold len. rewrite length_firstn. lia. Qed.

(** A block that still lies inside the truncated buffer is unchanged. *)
Lemma block_firstn (data : bytes) (m : nat) (offset : Z) :
  0 <= offset -> offset + 8 <= len (firstn m data) ->
  block (firstn m data) offset = block data offset.
Proof.
  intros H0 H8. pose proof H8 as H8'. rewrite len_firstn in H8'.
  unfold block. rewrite !slice_in_bounds by lia.
  rewrite skipn_firstn_comm, firstn_firstn. f_equal. lia.
Qed.

Lemma decode_at_firstn (data : bytes) (m : nat) (offset : Z) :
  0 <= offset -> offset + 8 <= len (firstn m data) ->
  decode_at (firstn m data) offset = decode_at data offset.
Proof.
  intros H0 H8. unfold decode_at. rewrite block_firstn by assumption.
  reflexivity.
Qed.

Lemma flat_map_ext_In {A B : Type} (f g : A -> list B) (l : list A) :
  (forall a, In a l -> f a = g a) -> flat_map f l = flat_map g l.
Proof.
  induction l as [| a l IH]; intros Hfg; [reflexivity |].
  cbn [flat_map]. rewrite (Hfg a (or_introl eq_refl)).
  rewrite IH by (intros b Hb; apply Hfg; right; exact Hb). reflexivity.
Qed.

(** The decoded slots of a truncated report, read in the whole report. *)
Lemma decoded_slots_firstn (data : bytes) (m : nat) :
  decoded_slots (firstn m data) =
  flat_map (decode_at data) (slot_offsets (firstn m data)).
Proof.
  unfold decoded_slots. apply flat_map_ext_In.
  intros off Hoff. unfold slot_offsets in Hoff.
  apply in_map_iff in Hoff as [i [<- Hi]]. apply In_range in Hi.
  destruct (slot_in_bounds _ i Hi) as [H0 H8].
  apply decode_at_firstn; assumption.
Qed.

Lemma num_slots_firstn_le (data : bytes) (m : nat) :
  num_slots (firstn m data) <= num_slots data.
Proof.
  unfold num_slots. apply Z.div_le_mono; [lia |].
  rewrite len_firstn. lia.
Qed.

(** Truncating a report drops touches from the end of its result and does
    nothing else. *)
Lemma parse_report_firstn (data : bytes) (m : nat) :
  exists more : list Touch.t,
    parse_report data =
    Ok (filter active (decoded_slots (firstn m data)) ++ more).
Proof.
  destruct (range_prefix _ _ (num_slots_firstn_le data m)) as [more Hmore].
  exists (filter active (flat_map (decode_at data) (map slot_offset more))).
  rewrite parse_report_filter, decoded_slots_firstn.
  unfold decoded_slots at 1. unfold slot_offsets.
  rewrite Hmore, map_app, flat_map_app, filter_app. reflexivity.
Qed.

(** Bytes after the last whole block are not read. *)
Lemma parse_report_whole_blocks (data : bytes) :
  14 <= len data ->
  parse_report (firstn (Z.to_nat (14 + 8 * num_slots data)) data) =
  parse_report data.
Proof.
  intros Hl. pose proof (num_slots_long data Hl) as Hn.
  set (m := Z.to_nat (14 + 8 * num_slots data)).
  assert (Hm : len (firstn m data) = 14 + 8 * num_slots data).
  { rewrite len_firstn. unfold num_slots in *.
    pose proof (Z.mul_div_le (len data - 14) 8 ltac:(lia)). lia. }
  assert (Hs : num_slots (firstn m data) = num_slots data).
  { unfold num_slots at 1. rewrite Hm.
    replace (14 + 8 * num_slots data - 14) with (num_slots data * 8) by lia.
    apply Z.div_mul. lia. }
  rewrite !parse_report_filter, decoded_slots_firstn.
  unfold decoded_slots, slot_offsets. rewrite Hs. reflexivity.
Qed.

Lemma filter_all {A : Type} (f : A -> bool) (l : list A) :
  (forall a, In a l -> f a = true) -> filter f l = l.
Proof.
  induction l as [| a l IH]; intros Hf; [reflexivity |].
  cbn [filter]. rewrite (Hf a (or_introl eq_refl)).
  rewrite IH by (intros b Hb; apply Hf; right; exact Hb). reflexivity.
Qed.

(** A decoded slot is the decoder's value on one of the report's blocks. *)
Lemma In_decoded_slots (data : bytes) (t : Touch.t) :
  In t (decoded_slots data) <->
  exists i, 0 <= i < num_slots data /\
            parse_touch (block data (slot_offset i)) 0 = Ok t.
Proof.
  unfold decoded_slots, slot_offsets. rewrite in_flat_map. split.
  - intros [off [Hoff Ht]]. apply in_map_iff in Hoff as [i [<- Hi]].
    apply In_range in Hi. exists i. split; [exact Hi |].
    unfold decode_at in Ht.
    destruct (parse_touch (block data (slot_offset i)) 0) as [t' | e];
      cbn in Ht; [destruct Ht as [-> | []]; reflexivity | contradiction].
  - intros [i [Hi Ht]]. exists (slot_offset i). split.
    + apply in_map. apply In_range. exact Hi.
    + unfold decode_at. rewrite Ht. left. reflexivity.
Qed.

Lemma active_iff (t : Touch.t) :
  active t = true <-> Touch.state t > 0 \/ Touch.size t > 0.
Proof.
  unfold active. rewrite orb_true_iff.
  rewrite !Z.gtb_gt. reflexivity.
Qed.

Lemma num_slots_exact (data : bytes) (k : Z) :
  len data = 14 + 8 * k -> num_slots data = k.
Proof.
  intros Hl. unfold num_slots. rewrite Hl.
  replace (14 + 8 * k - 14) with (k * 8) by lia. apply Z.div_mul. lia.
Qed.

(** The guard of the loop body never fails: the recorded calls are all
    the slots. *)
Lemma parse_report_calls_slots (data : bytes) :
  parse_report_calls data = slot_offsets data.
Proof.
  unfold parse_report_calls, slot_offsets. fold (num_slots data).
  destruct (Z.ltb_spec (len data) 14) as [Hs | Hl].
  - rewrite range_nonpos by (pose proof (num_slots_short data Hs); lia).
    reflexivity.
  - assert (Hall : forall i, In i (range (num_slots data)) ->
                             0 <= i < num_slots data)
      by (intros i; apply In_range).
    induction (range (num_slots data)) as [| i idx IH]; [reflexivity |].
    cbn [flat_map map]. fold (slot_offset i).
    destruct (slot_in_bounds data i (Hall i (or_introl eq_refl))) as [_ H8].
    destruct (Z.leb_spec (slot_offset i + 8) (len data)); [| lia].
    cbn [app]. f_equal. apply IH. intros j Hj. apply Hall. right. exact Hj.
Qed.

(** C3. A buffer shorter than 14 bytes decodes to the empty sequence.  A
    buffer of length 14 + 8k whose k blocks are all active (state > 0 or
    size > 0) decodes to exactly k samples, the i-th being the touch
    decoder applied to the 8-byte block at offset 14 + 8*i, in ascending
    offset order and with no deduplication by id.  For any other length
    exactly floor((length - 14) / 8) blocks are considered and the trailing
    partial block is ignored. *)
Theorem parse_report_by_length (data : bytes) :
  (len data < 14 -> parse_report data = Ok []) /\
  (forall k : Z,
      0 <= k -> len data = 14 + 8 * k ->
      (forall i t, 0 <= i < k ->
                   parse_touch (block data (14 + 8 * i)) 0 = Ok t ->
                   Touch.state t > 0 \/ Touch.size t > 0) ->
      exists ts : list Touch.t,
        parse_report data = Ok ts /\ len ts = k /\
        forall i, 0 <= i < k ->
          exists t, nth_error ts (Z.to_nat i) = Some t /\
                    parse_touch (block data (14 + 8 * i)) 0 = Ok t) /\
  (14 <= len data ->
     parse_report data = Ok (filter active (decoded_slots data)) /\
     len (decoded_slots data) = (len data - 14) / 8 /\
     (forall i, 0 <= i < (len data - 14) / 8 ->
        exists t, nth_error (decoded_slots data) (Z.to_nat i) = Some t /\
                  parse_touch (block data (14 + 8 * i)) 0 = Ok t) /\
     parse_report (firstn (Z.to_nat (14 + 8 * ((len data - 14) / 8))) data) =
     parse_report data).
Proof.
  split; [| split].
  - intros Hs. unfold parse_report.
    destruct (Z.ltb_spec (len data) 14); [reflexivity | lia].
  - intros k Hk Hl Hact.
    pose proof (num_slots_exact data k Hl) as Hn.
    assert (Hall : filter active (decoded_slots data) = decoded_slots data).
    { apply filter_all. intros t Ht. apply active_iff.
      apply In_decoded_slots in Ht as [i [Hi Hp]].
      apply (Hact i t); [lia |].
      replace (14 + 8 * i) with (slot_offset i) by (unfold slot_offset; lia).
      exact Hp. }
    exists (decoded_slots data). split; [| split].
    + rewrite parse_report_filter, Hall. reflexivity.
    + rewrite decoded_slots_length. lia.
    + intros i Hi.
      replace (14 + 8 * i) with (slot_offset i) by (unfold slot_offset; lia).
      apply decoded_slots_nth. lia.
  - intros Hl. fold (num_slots data).
    pose proof (num_slots_long data Hl) as Hn. repeat split.
    + apply parse_report_filter.
    + rewrite decoded_slots_length. lia.
    + intros i Hi.
      replace (14 + 8 * i) with (slot_offset i) by (unfold slot_offset; lia).
      apply decoded_slots_nth. exact Hi.
    + apply parse_report_whole_blocks. exact Hl.
Qed.

(** C4. No touch with state = 0 and size = 0 appears in a result of
    [parse_report]: the result is the decoded slots filtered by
    state > 0 or size > 0, so a decoded slot is in the output exactly when
    it passes that test. *)
Theorem parse_report_only_active (data : bytes) :
  exists ts : list Touch.t,
    parse_report data = Ok ts /\
    (forall t, In t ts -> ~ (Touch.state t = 0 /\ Touch.size t = 0)) /\
    ts = filter (fun t => (Touch.state t >? 0) || (Touch.size t >? 0))
                (decoded_slots data) /\
    (forall t, In t ts <->
               In t (decoded_slots data) /\
               (Touch.state t > 0 \/ Touch.size t > 0)).
Proof.
  exists (filter active (decoded_slots data)).
  split; [apply parse_report_filter |]. split; [| split].
  - intros t Ht. apply filter_In in Ht as [_ Ha].
    apply active_iff in Ha. lia.
  - reflexivity.
  - intros t. rewrite filter_In, active_iff. reflexivity.
Qed.

(** C9. [parse_report] never raises, whatever the length of the buffer;
    every call of [parse_touch] it makes is on a block that lies inside
    the buffer (offset + 8 <= length) and so decodes; and a truncated
    report yields a result with touches missing from the end, never an
    error. *)
Theorem parse_report_total (data : bytes) :
  (exists ts : list Touch.t,
      parse_report data = Ok ts /\
      len ts <= Z.max 0 ((len data - 14) / 8)) /\
  Forall (fun offset =>
            0 <= offset /\ offset + 8 <= len data /\
            length (slice data offset (offset + 8)) = 8%nat /\
            exists t, parse_touch data offset = Ok t)
         (parse_report_calls data) /\
  (forall m : nat,
      exists ts' more : list Touch.t,
        parse_report (firstn m data) = Ok ts' /\
        parse_report data = Ok (ts' ++ more)).
Proof.
  split; [| split].
  - exists (filter active (decoded_slots data)).
    split; [apply parse_report_filter |].
    fold (num_slots data). rewrite <- decoded_slots_length.
    unfold len. pose proof (filter_length_le active (decoded_slots data)). lia.
  - rewrite parse_report_calls_slots. apply Forall_forall.
    intros off Hoff. unfold slot_offsets in Hoff.
    apply in_map_iff in Hoff as [i [<- Hi]]. apply In_range in Hi.
    destruct (slot_in_bounds data i Hi) as [H0 H8].
    destruct (parse_touch_in_bounds data _ H0 H8) as [t [Ht _]].
    repeat split; try assumption.
    + apply (block_in_bounds data _ H0 H8).
    + exists t. exact Ht.
  - intros m. destruct (parse_report_firstn data m) as [more Hmore].
    exists (filter active (decoded_slots (firstn m data))), more.
    split; [apply parse_report_filter | exact Hmore].
Qed.

(** ** Binary64 comparisons *)

Lemma SFcompare_antisym (a b : spec_float) :
  SFcompare b a = option_map CompOpp (SFcompare a b).
Proof.
  destruct a as [sa | sa | | sa ma ea], b as [sb | sb | | sb mb eb];
    cbn; try reflexivity;
    try (destruct sa; reflexivity); try (destruct sb; reflexivity);
    try (destruct sa, sb; reflexivity).
  destruct sa, sb; try reflexivity;
    rewrite (Z.compare_antisym ea eb);
    destruct (ea ?= eb); cbn; try reflexivity.
  - rewrite CompOpp_involutive. f_equal.
    exact (Pos.compare_cont_antisym mb ma Eq).
  - f_equal. symmetry. exact (Pos.compare_cont_antisym ma mb Eq).
Qed.

(** [a < b] excludes [b < a]. *)
Lemma float_ltb_asym (a b : float) :
  (a <? b)%float = true -> (b <? a)%float = false.
Proof.
  rewrite !ltb_spec. unfold SFltb.
  rewrite (SFcompare_antisym (Prim2SF a) (Prim2SF b)).
  destruct (SFcompare (Prim2SF a) (Prim2SF b)) as [[ | | ] |];
    cbn; congruence.
Qed.

(** [a <= b] excludes [b < a]. *)
Lemma float_leb_not_gt (a b : float) :
  (a <=? b)%float = true -> (b <? a)%float = false.
Proof.
  rewrite ltb_spec, leb_spec. unfold SFltb, SFleb.
  rewrite (SFcompare_antisym (Prim2SF a) (Prim2SF b)).
  destruct (SFcompare (Prim2SF a) (Prim2SF b)) as [[ | | ] |];
    cbn; congruence.
Qed.

(** ** The gesture detector, branch by branch *)

(** Inside the cooldown window nothing happens. *)
Lemma detect_gesture_cooldown (touches : list Touch.t) (now : float)
    (st : GestureState.t) :
  (now - GestureState.last_gesture_time st <? 0.5)%float = true ->
  detect_gesture touches now st = Ok (None, st).
Proof.
  intros Hc. unfold detect_gesture. rewrite Hc. reflexivity.
Qed.

(** No touches: the anchor and the finger count are reset. *)
Lemma detect_gesture_empty (now : float) (st : GestureState.t) :
  cooldown_passed now st ->
  detect_gesture [] now st =
  Ok (None, GestureState.mk None None None 0 (GestureState.last_gesture_time st)).
Proof.
  intros Hc. unfold detect_gesture. rewrite Hc. reflexivity.
Qed.

(** First touches: the anchor is set. *)
Lemma detect_gesture_establish (touches : list Touch.t) (now : float)
    (st : GestureState.t) :
  cooldown_passed now st -> touches <> [] ->
  GestureState.start_x st = None ->
  detect_gesture touches now st =
  Ok (None, GestureState.mk (Some (avg_x touches)) (Some (avg_y touches))
              (Some now) (len touches) (GestureState.last_gesture_time st)).
Proof.
  intros Hc Hne Hx. unfold detect_gesture. rewrite Hc.
  destruct touches as [| t ts]; [contradiction |].
  rewrite Hx. reflexivity.
Qed.

(** With an anchor: a swipe, a re-based anchor, or nothing. *)
Lemma detect_gesture_anchored (touches : list Touch.t) (now : float)
    (st : GestureState.t) (ax ay : Z) (at_ : float) :
  cooldown_passed now st -> touches <> [] -> anchored st ax ay at_ ->
  detect_gesture touches now st =
  if swipe_condition (avg_x touches - ax) (avg_y touches - ay) (now - at_)%float
  then Ok (Some (if avg_x touches - ax >? 0
                 then "swipe_right"%string else "swipe_left"%string),
           GestureState.mk None None None (GestureState.finger_count st) now)
  else if (0.4 <? now - at_)%float
  then Ok (None, GestureState.mk (Some (avg_x touches)) (Some (avg_y touches))
                   (Some now) (GestureState.finger_count st)
                   (GestureState.last_gesture_time st))
  else Ok (None, st).
Proof.
  intros Hc Hne (Hx & Hy & Ht). unfold detect_gesture. rewrite Hc.
  destruct touches as [| t ts]; [contradiction |].
  rewrite Hx, Hy, Ht. cbn [operand bind].
  fold (avg_x (t :: ts)). fold (avg_y (t :: ts)).
  unfold swipe_condition, SWIPE_TIME_MAX, SWIPE_THRESHOLD.
  rewrite (Z.mul_comm 2).
  destruct st as [sx sy stime fc lgt].
  cbn [GestureState.start_x GestureState.start_y GestureState.start_time
       GestureState.finger_count GestureState.last_gesture_time] in *.
  subst sx sy stime.
  destruct (now - at_ <? 0.4)%float;
    destruct (Z.abs (avg_x (t :: ts) - ax) >? 200);
    destruct (Z.abs (avg_x (t :: ts) - ax) >? Z.abs (avg_y (t :: ts) - ay) * 2);
    reflexivity.
Qed.

(** An anchor with a missing coordinate or time makes the call raise. *)
Lemma detect_gesture_broken_anchor (touches : list Touch.t) (now : float)
    (st : GestureState.t) (ax : Z) :
  cooldown_passed now st -> touches <> [] ->
  GestureState.start_x st = Some ax ->
  GestureState.start_y st = None \/ GestureState.start_time st = None ->
  detect_gesture touches now st = Raise TypeError.
Proof.
  intros Hc Hne Hx Hbad. unfold detect_gesture. rewrite Hc.
  destruct touches as [| t ts]; [contradiction |].
  rewrite Hx.
  destruct (GestureState.start_y st); destruct Hbad as [Hb | Hb];
    try discriminate Hb; try reflexivity.
  rewrite Hb. reflexivity.
Qed.

(** The centroid is the floor of the mean. *)
Lemma floor_mean (total n : Z) :
  0 < n -> n * (total / n) <= total < n * (total / n + 1).
Proof.
  intros Hn. pose proof (Z.mul_div_le total n Hn).
  pose proof (Z.mul_succ_div_gt total n Hn). lia.
Qed.

Lemma len_pos {A : Type} (l : list A) : l <> [] -> 0 < len l.
Proof.
  destruct l; [contradiction |]. intros _. unfold len. cbn [length]. lia.
Qed.

(** C1. With the cooldown passed, touches present and an anchor set, the
    call returns a gesture exactly when elapsed < 0.4 and |dx| > 200 and
    |dx| > 2*|dy| (dx, dy: floor-mean centroid minus anchor; elapsed: now
    minus anchor time); the gesture is swipe_right when dx > 0 and
    swipe_left otherwise; on emission the anchor is cleared and
    last_gesture_time becomes now.  Anchor (500, 1000, 0.0) and centroid
    (750, 1010) at 0.1 give swipe_right; anchor (0, 0, 0) and centroid
    (250, 200) at 0.1 give nothing and leave the state as it was. *)
Theorem detect_gesture_swipe_classification :
  (forall (touches : list Touch.t) (now : float) (st : GestureState.t)
          (ax ay : Z) (at_ : float),
      cooldown_passed now st -> touches <> [] -> anchored st ax ay at_ ->
      let dx := avg_x touches - ax in
      let dy := avg_y touches - ay in
      let elapsed := (now - at_)%float in
      exists (r : option string) (st' : GestureState.t),
        detect_gesture touches now st = Ok (r, st') /\
        (r <> None <-> swipe_condition dx dy elapsed = true) /\
        (swipe_condition dx dy elapsed = true ->
           r = Some (if dx >? 0 then "swipe_right"%string
                     else "swipe_left"%string) /\
           no_anchor st' /\
           GestureState.last_gesture_time st' = now /\
           GestureState.finger_count st' = GestureState.finger_count st)) /\
  (forall (touches : list Touch.t) (st : GestureState.t),
      cooldown_passed 0.1 st -> touches <> [] ->
      avg_x touches = 750 -> avg_y touches = 1010 ->
      anchored st 500 1000 0 ->
      detect_gesture touches 0.1 st =
      Ok (Some "swipe_right"%string,
          GestureState.mk None None None (GestureState.finger_count st) 0.1)) /\
  (forall (touches : list Touch.t) (st : GestureState.t),
      cooldown_passed 0.1 st -> touches <> [] ->
      avg_x touches = 250 -> avg_y touches = 200 ->
      anchored st 0 0 0 ->
      detect_gesture touches 0.1 st = Ok (None, st)).
Proof.
  split; [| split].
  - intros touches now st ax ay at_ Hc Hne Ha dx dy elapsed.
    rewrite (detect_gesture_anchored touches now st ax ay at_ Hc Hne Ha).
    fold dx dy elapsed.
    destruct (swipe_condition dx dy elapsed).
    + eexists _, _. split; [reflexivity |]. split.
      * split; [reflexivity | discriminate].
      * intros _. repeat split.
    + destruct (0.4 <? elapsed)%float; eexists _, _;
        (split; [reflexivity |]); split;
        try (split; [intros H; contradiction H; reflexivity | discriminate]);
        discriminate.
  - intros touches st Hc Hne Hx Hy Ha.
    rewrite (detect_gesture_anchored touches _ st _ _ _ Hc Hne Ha), Hx, Hy.
    reflexivity.
  - intros touches st Hc Hne Hx Hy Ha.
    rewrite (detect_gesture_anchored touches _ st _ _ _ Hc Hne Ha), Hx, Hy.
    reflexivity.
Qed.

(** C5. Inside the cooldown window (now - last_gesture_time < 0.5) the
    call returns nothing and leaves every field of the state as it was,
    whatever the touches, the empty list included. *)
Theorem detect_gesture_cooldown_gate (touches : list Touch.t) (now : float)
    (st : GestureState.t) :
  (now - GestureState.last_gesture_time st <? 0.5)%float = true ->
  detect_gesture touches now st = Ok (None, st) /\
  detect_gesture [] now st = Ok (None, st).
Proof.
  intros Hc. split; apply detect_gesture_cooldown; exact Hc.
Qed.

(** C6. With an anchor set, touches present and the cooldown passed, when
    no swipe qualifies: if elapsed > 0.4 the anchor is re-based to the
    current centroid and time and nothing is returned; if elapsed <= 0.4
    nothing is returned and the state is as it was.  Anchor (0, 0, 0) and
    centroid (50, 0) at 0.5 re-anchor to (50, 0, 0.5), and a following call
    with centroid (260, 0) at 0.55 emits a swipe. *)
Theorem detect_gesture_rebase :
  (forall (touches : list Touch.t) (now : float) (st : GestureState.t)
          (ax ay : Z) (at_ : float),
      cooldown_passed now st -> touches <> [] -> anchored st ax ay at_ ->
      let elapsed := (now - at_)%float in
      swipe_condition (avg_x touches - ax) (avg_y touches - ay) elapsed = false ->
      ((0.4 <? elapsed)%float = true ->
       detect_gesture touches now st =
       Ok (None, GestureState.mk (Some (avg_x touches)) (Some (avg_y touches))
                   (Some now) (GestureState.finger_count st)
                   (GestureState.last_gesture_time st))) /\
      ((elapsed <=? 0.4)%float = true ->
       detect_gesture touches now st = Ok (None, st))) /\
  (forall (first second : list Touch.t) (st : GestureState.t),
      anchored st 0 0 0 ->
      cooldown_passed 0.5 st -> cooldown_passed 0.55 st ->
      first <> [] -> avg_x first = 50 -> avg_y first = 0 ->
      second <> [] -> avg_x second = 260 -> avg_y second = 0 ->
      let st1 := GestureState.mk (Some 50) (Some 0) (Some 0.5%float)
                   (GestureState.finger_count st)
                   (GestureState.last_gesture_time st) in
      detect_gesture first 0.5 st = Ok (None, st1) /\
      detect_gesture second 0.55 st1 =
      Ok (Some "swipe_right"%string,
          GestureState.mk None None None (GestureState.finger_count st) 0.55)).
Proof.
  split.
  - intros touches now st ax ay at_ Hc Hne Ha elapsed Hno.
    rewrite (detect_gesture_anchored touches now st ax ay at_ Hc Hne Ha).
    fold elapsed. rewrite Hno. split.
    + intros Hgt. rewrite Hgt. reflexivity.
    + intros Hle. rewrite (float_leb_not_gt _ _ Hle). reflexivity.
  - intros first second st Ha Hc1 Hc2 Hn1 Hx1 Hy1 Hn2 Hx2 Hy2 st1. split.
    + rewrite (detect_gesture_anchored first _ st _ _ _ Hc1 Hn1 Ha), Hx1, Hy1.
      reflexivity.
    + assert (Ha1 : anchored st1 50 0 0.5) by (repeat split).
      rewrite (detect_gesture_anchored second _ st1 _ _ _ Hc2 Hn2 Ha1), Hx2, Hy2.
      reflexivity.
Qed.

(** C7. With the cooldown passed: an empty touch list clears the anchor
    (position and time absent, finger_count = 0) and returns nothing; a
    non-empty touch list with no anchor set puts the anchor at the
    floor-mean centroid (integer floor division of the sums of x and of y
    by the number of touches) with time now, records the number of touches
    in finger_count, and returns nothing.  So the first non-empty call
    after an empty one starts a new candidate. *)
Theorem detect_gesture_reset_and_establish :
  (forall (now : float) (st : GestureState.t),
      cooldown_passed now st ->
      detect_gesture [] now st =
      Ok (None, GestureState.mk None None None 0
                  (GestureState.last_gesture_time st))) /\
  (forall (touches : list Touch.t) (now : float) (st : GestureState.t),
      cooldown_passed now st -> touches <> [] ->
      GestureState.start_x st = None ->
      detect_gesture touches now st =
      Ok (None, GestureState.mk (Some (avg_x touches)) (Some (avg_y touches))
                  (Some now) (len touches)
                  (GestureState.last_gesture_time st)) /\
      len touches * avg_x touches <= sum (map Touch.x touches)
        < len touches * (avg_x touches + 1) /\
      len touches * avg_y touches <= sum (map Touch.y touches)
        < len touches * (avg_y touches + 1)) /\
  (forall (touches : list Touch.t) (t1 t2 : float) (st : GestureState.t),
      cooldown_passed t1 st -> cooldown_passed t2 st -> touches <> [] ->
      detect_all [([], t1); (touches, t2)] st =
      Ok ([None; None],
          GestureState.mk (Some (avg_x touches)) (Some (avg_y touches))
            (Some t2) (len touches) (GestureState.last_gesture_time st))).
Proof.
  split; [| split].
  - intros now st Hc. apply detect_gesture_empty. exact Hc.
  - intros touches now st Hc Hne Hx. split; [| split].
    + apply detect_gesture_establish; assumption.
    + apply floor_mean. apply len_pos. exact Hne.
    + apply floor_mean. apply len_pos. exact Hne.
  - intros touches t1 t2 st Hc1 Hc2 Hne. cbn [detect_all].
    rewrite (detect_gesture_empty t1 st Hc1). cbn [bind snd fst].
    rewrite (detect_gesture_establish touches t2) by
      (try assumption; try reflexivity).
    reflexivity.
Qed.

(** Every branch leaves the three anchor fields all absent or all present. *)
Lemma detect_gesture_wf_step (touches : list Touch.t) (now : float)
    (st : GestureState.t) :
  anchor_wf st ->
  exists (r : option string) (st' : GestureState.t),
    detect_gesture touches now st = Ok (r, st') /\ anchor_wf st'.
Proof.
  intros Hwf.
  destruct (now - GestureState.last_gesture_time st <? 0.5)%float eqn:Hc.
  - exists None, st. split; [apply detect_gesture_cooldown; exact Hc | exact Hwf].
  - destruct touches as [| t ts].
    + eexists _, _. split; [apply detect_gesture_empty; exact Hc |].
      left. repeat split.
    + destruct Hwf as [(Hx & _) | (ax & ay & at_ & Ha)].
      * eexists _, _. split.
        -- apply detect_gesture_establish; [exact Hc | discriminate | exact Hx].
        -- right. eexists _, _, _. repeat split.
      * rewrite (detect_gesture_anchored (t :: ts) now st ax ay at_ Hc
                   ltac:(discriminate) Ha).
        destruct (swipe_condition _ _ _).
        -- eexists _, _. split; [reflexivity |]. left. repeat split.
        -- destruct (0.4 <? now - at_)%float; eexists _, _;
             (split; [reflexivity |]).
           ++ right. eexists _, _, _. repeat split.
           ++ right. exists ax, ay, at_. exact Ha.
Qed.

(** C10. Every call of [detect_gesture] keeps start_x, start_y and
    start_time all absent or all present: from such a state the call
    returns (it does not raise) and the new state is again such a state;
    so it is in every state the driver reaches from [GestureState()]. *)
Theorem detect_gesture_anchor_wf :
  (forall (touches : list Touch.t) (now : float) (st : GestureState.t),
      anchor_wf st ->
      exists (r : option string) (st' : GestureState.t),
        detect_gesture touches now st = Ok (r, st') /\ anchor_wf st') /\
  (forall (polls : list (list Touch.t * float)) (st : GestureState.t),
      anchor_wf st ->
      exists (rs : list (option string)) (st' : GestureState.t),
        detect_all polls st = Ok (rs, st') /\ anchor_wf st' /\
        length rs = length polls) /\
  anchor_wf GestureState.default.
Proof.
  split; [exact detect_gesture_wf_step | split].
  - induction polls as [| [touches now] polls IH]; intros st Hwf.
    + exists [], st. repeat split. exact Hwf.
    + destruct (detect_gesture_wf_step touches now st Hwf) as (r & st1 & Hd & Hwf1).
      destruct (IH st1 Hwf1) as (rs & st' & Hall & Hwf' & Hlen).
      exists (r :: rs), st'. cbn [detect_all]. rewrite Hd. cbn [bind snd fst].
      rewrite Hall. cbn [bind snd fst length]. rewrite Hlen. repeat split.
      exact Hwf'.
  - left. repeat split.
Qed.

(** C8 (what the code does). The call that re-bases the anchor leaves
    finger_count as it was.  From [GestureState()], one touch at time 1
    sets the anchor and finger_count = 1; two touches at time 2 find the
    candidate window expired and re-base the anchor to their centroid and
    to time 2, and finger_count is still 1, not 2. *)
Theorem detect_gesture_rebase_finger_count :
  let st1 := GestureState.mk (Some 0) (Some 0) (Some 1%float) 1 0%float in
  let st2 := GestureState.mk (Some 50) (Some 0) (Some 2%float) 1 0%float in
  detect_gesture [touch_at 0 0] 1 GestureState.default = Ok (None, st1) /\
  detect_gesture [touch_at 40 0; touch_at 60 0] 2 st1 = Ok (None, st2) /\
  detect_all [([touch_at 0 0], 1%float);
              ([touch_at 40 0; touch_at 60 0], 2%float)]
             GestureState.default = Ok ([None; None], st2) /\
  anchored st2 50 0 2 /\
  GestureState.finger_count st2 <> len [touch_at 40 0; touch_at 60 0].
Proof.
  cbv zeta. repeat split. discriminate.
Qed.

(** * The statements at sample inputs *)

Lemma parse_touch_total_fields_ranges_witness :
  length sample_block = 8%nat /\
  exists t : Touch.t,
    parse_touch sample_block 0 = Ok t /\ Touch.x t = 0x234 /\
    in_declared_ranges t.
Proof.
  split; [reflexivity |].
  destruct (parse_touch_total_fields_ranges sample_block eq_refl)
    as (t & Ht & Hx & _ & _ & _ & _ & _ & _ & _ & Hr).
  exists t. split; [exact Ht |]. split; [exact Hx | exact Hr].
Defined.

Lemma sample_report_active (i : Z) (t : Touch.t) :
  0 <= i < 2 ->
  parse_touch (block sample_report (14 + 8 * i)) 0 = Ok t ->
  Touch.state t > 0 \/ Touch.size t > 0.
Proof.
  intros Hi Hp. assert (Hcase : i = 0 \/ i = 1) by lia.
  destruct Hcase as [-> | ->]; vm_compute in Hp;
    injection Hp as <-; left; reflexivity.
Defined.

Lemma parse_report_by_length_witness :
  parse_report (firstn 10 sample_header) = Ok [] /\
  (exists ts : list Touch.t,
      parse_report sample_report = Ok ts /\ len ts = 2 /\
      forall i, 0 <= i < 2 ->
        exists t, nth_error ts (Z.to_nat i) = Some t /\
                  parse_touch (block sample_report (14 + 8 * i)) 0 = Ok t) /\
  parse_report (firstn 30 ragged_report) = parse_report ragged_report.
Proof.
  split; [| split].
  - apply (proj1 (parse_report_by_length (firstn 10 sample_header))).
    vm_compute. reflexivity.
  - apply (proj1 (proj2 (parse_report_by_length sample_report)) 2).
    + lia.
    + reflexivity.
    + exact sample_report_active.
  - apply (proj2 (proj2 (parse_report_by_length ragged_report))).
    vm_compute. discriminate.
Defined.

Lemma detect_gesture_swipe_classification_witness :
  (exists (r : option string) (st' : GestureState.t),
      detect_gesture [touch_at 700 1010; touch_at 801 1011] 0.1
        (anchored_state 500 1000 0 (-1)) = Ok (r, st') /\
      r = Some "swipe_right"%string /\ no_anchor st') /\
  detect_gesture [touch_at 750 1010] 0.1 (anchored_state 500 1000 0 (-1)) =
  Ok (Some "swipe_right"%string, GestureState.mk None None None 1 0.1) /\
  detect_gesture [touch_at 250 200] 0.1 (anchored_state 0 0 0 (-1)) =
  Ok (None, anchored_state 0 0 0 (-1)).
Proof.
  split; [| split].
  - destruct (proj1 detect_gesture_swipe_classification
                [touch_at 700 1010; touch_at 801 1011] 0.1%float
                (anchored_state 500 1000 0 (-1)) 500 1000 0%float)
      as (r & st' & Hd & _ & Hemit).
    + reflexivity.
    + discriminate.
    + repeat split.
    + exists r, st'. split; [exact Hd |].
      destruct (Hemit eq_refl) as (Hr & Hna & _). split; assumption.
  - apply (proj1 (proj2 detect_gesture_swipe_classification)
             [touch_at 750 1010] (anchored_state 500 1000 0 (-1)));
      try reflexivity; [discriminate | repeat split].
  - apply (proj2 (proj2 detect_gesture_swipe_classification)
             [touch_at 250 200] (anchored_state 0 0 0 (-1)));
      try reflexivity; [discriminate | repeat split].
Defined.

Lemma detect_gesture_cooldown_gate_witness :
  detect_gesture [touch_at 750 1010] 0.2 (anchored_state 500 1000 0.15 0.1) =
  Ok (None, anchored_state 500 1000 0.15 0.1) /\
  detect_gesture [] 0.2 (anchored_state 500 1000 0.15 0.1) =
  Ok (None, anchored_state 500 1000 0.15 0.1).
Proof.
  apply (detect_gesture_cooldown_gate
           [touch_at 750 1010] 0.2%float (anchored_state 500 1000 0.15 0.1)).
  reflexivity.
Defined.

Lemma detect_gesture_rebase_witness :
  detect_gesture [touch_at 50 0] 0.5 (anchored_state 0 0 0 0) =
  Ok (None, GestureState.mk (Some 50) (Some 0) (Some 0.5%float) 1 0) /\
  detect_gesture [touch_at 50 0] 0.6 (anchored_state 0 0 0.3 0) =
  Ok (None, anchored_state 0 0 0.3 0) /\
  detect_gesture [touch_at 260 0] 0.55
    (GestureState.mk (Some 50) (Some 0) (Some 0.5%float) 1 0) =
  Ok (Some "swipe_right"%string, GestureState.mk None None None 1 0.55).
Proof.
  split; [| split].
  - apply (proj1 detect_gesture_rebase
             [touch_at 50 0] 0.5%float (anchored_state 0 0 0 0) 0 0 0%float);
      try reflexivity; [discriminate | repeat split].
  - apply (proj1 detect_gesture_rebase
             [touch_at 50 0] 0.6%float (anchored_state 0 0 0.3 0) 0 0 0.3%float);
      try reflexivity; [discriminate | repeat split].
  - apply (proj2 detect_gesture_rebase
             [touch_at 50 0] [touch_at 260 0] (anchored_state 0 0 0 0));
      try reflexivity; try discriminate. repeat split.
Defined.

Lemma detect_gesture_reset_and_establish_witness :
  detect_gesture [] 1 (anchored_state 5 6 0.9 0) =
  Ok (None, GestureState.mk None None None 0 0) /\
  detect_gesture [touch_at 10 20; touch_at 13 21; touch_at 12 22] 1
    GestureState.default =
  Ok (None, GestureState.mk (Some 11) (Some 21) (Some 1%float) 3 0) /\
  detect_all [([], 1%float); ([touch_at 10 20; touch_at 13 21], 1.5%float)]
    (anchored_state 5 6 0.9 0) =
  Ok ([None; None], GestureState.mk (Some 11) (Some 20) (Some 1.5%float) 2 0).
Proof.
  split; [| split].
  - apply (proj1 detect_gesture_reset_and_establish 1%float
             (anchored_state 5 6 0.9 0)).
    reflexivity.
  - apply (proj1 (proj2 detect_gesture_reset_and_establish)
             [touch_at 10 20; touch_at 13 21; touch_at 12 22] 1%float
             GestureState.default);
      try reflexivity. discriminate.
  - apply (proj2 (proj2 detect_gesture_reset_and_establish)
             [touch_at 10 20; touch_at 13 21] 1%float 1.5%float
             (anchored_state 5 6 0.9 0));
      try reflexivity. discriminate.
Defined.

Lemma detect_gesture_anchor_wf_witness :
  (exists (r : option string) (st' : GestureState.t),
      detect_gesture [touch_at 750 1010] 0.1 (anchored_state 500 1000 0 (-1)) =
      Ok (r, st') /\ anchor_wf st') /\
  (exists (rs : list (option string)) (st' : GestureState.t),
      detect_all [([touch_at 0 0], 1%float); ([], 2%float)]
        GestureState.default = Ok (rs, st') /\ anchor_wf st' /\
      length rs = 2%nat).
Proof.
  split.
  - apply (proj1 detect_gesture_anchor_wf).
    right. exists 500, 1000, 0%float. repeat split.
  - apply (proj1 (proj2 detect_gesture_anchor_wf)
             [([touch_at 0 0], 1%float); ([], 2%float)] GestureState.default).
    left. repeat split.
Defined.

(** The sample block decodes to the fields listed with it. *)
Example parse_touch_sample_block :
  parse_touch sample_block 0 = Ok (touch_at 0x234 0x178).
Proof. reflexivity. Qed.

(** A padding block between the header and an active block is dropped;
    two active blocks with the same id are both kept. *)
Example parse_report_padding_and_duplicates :
  parse_report (sample_header ++ zero_block ++ sample_block) =
  Ok [touch_at 0x234 0x178] /\
  parse_report sample_report =
  Ok [touch_at 0x234 0x178; touch_at 0x234 0x178] /\
  parse_report ragged_report = parse_report sample_report.
Proof. repeat split. Qed.

(** A block cut short makes [parse_touch] itself raise; [parse_report]
    never asks for one. *)
Example parse_touch_short_block :
  parse_touch (firstn 7 sample_block) 0 = Raise IndexError /\
  parse_touch sample_report 24 = Raise IndexError /\
  parse_report (firstn 29 sample_report) = Ok [touch_at 0x234 0x178].
Proof. repeat split. Qed.

(** * Further properties *)

(** ** The bit fields as positional arithmetic *)

(** Or-ing a number below [2^k] with one shifted left by [k] adds them. *)
Lemma lor_shiftl_add (a b k : Z) :
  0 <= k -> 0 <= a < 2 ^ k ->
  Z.lor a (Z.shiftl b k) = a + b * 2 ^ k.
Proof.
  intros Hk Ha.
  assert (Hdisj : Z.land a (Z.shiftl b k) = 0).
  { apply Z.bits_inj'. intros n Hn. rewrite Z.land_spec, Z.bits_0.
    destruct (Z.lt_ge_cases n k) as [Hlt | Hge].
    - rewrite Z.shiftl_spec_low by exact Hlt. apply andb_false_r.
    - rewrite <- (Z.mod_small a (2 ^ k)) by exact Ha.
      rewrite Z.mod_pow2_bits_high by lia. reflexivity. }
  rewrite <- Z.lxor_lor by exact Hdisj.
  rewrite <- Z.add_nocarry_lxor by exact Hdisj.
  rewrite Z.shiftl_mul_pow2 by exact Hk. reflexivity.
Qed.

(** The masks and shifts of [parse_touch] on one byte. *)
Lemma byte_fields (b : byte) :
  Z.land (byte_val b) 0x0F = byte_val b mod 16 /\
  Z.land (byte_val b) 0xF0 = Z.shiftl (byte_val b / 16) 4 /\
  Z.land (byte_val b) 0x3F = byte_val b mod 64 /\
  Z.land (Z.shiftr (byte_val b) 6) 0x03 = byte_val b / 64 /\
  Z.land (byte_val b) 0x03 = byte_val b mod 4 /\
  Z.land (Z.shiftr (byte_val b) 2) 0x3F = byte_val b / 4 /\
  Z.land (Z.shiftr (byte_val b) 4) 0x0F = byte_val b / 16.
Proof.
  destruct b; repeat split; reflexivity.
Qed.

(** What [parse_touch] computes, in quotients and remainders. *)
Lemma parse_touch_bytes_arith (b0 b1 b2 b3 b4 b5 b6 b7 : byte) :
  parse_touch [b0; b1; b2; b3; b4; b5; b6; b7] 0 =
  Ok (Touch.mk
        (byte_val b5 / 64 + 4 * (byte_val b6 mod 4))
        (byte_val b0 + 256 * (byte_val b1 mod 16))
        (byte_val b2 + 256 * (byte_val b1 / 16))
        (byte_val b3) (byte_val b4)
        (byte_val b5 mod 64)
        (byte_val b6 / 4)
        (byte_val b7 / 16)).
Proof.
  rewrite parse_touch_bytes.
  destruct (byte_fields b1) as (H1lo & H1hi & _).
  destruct (byte_fields b5) as (_ & _ & H5lo & H5hi & _).
  destruct (byte_fields b6) as (_ & _ & _ & _ & H6lo & H6hi & _).
  destruct (byte_fields b7) as (_ & _ & _ & _ & _ & _ & H7).
  rewrite H1lo, H1hi, H5lo, H5hi, H6lo, H6hi, H7.
  rewrite Z.shiftl_shiftl by lia. change (4 + 4) with 8.
  pose proof (byte_val_range b0). pose proof (byte_val_range b2).
  pose proof (byte_val_range b5).
  rewrite !lor_shiftl_add;
    try lia; try (change (2 ^ 8) with 256; lia).
  - do 2 f_equal; lia.
  - change (2 ^ 2) with 4. split; [apply Z.div_pos; lia |].
    apply Z.div_lt_upper_bound; lia.
Qed.

Lemma Ok_inj {A : Type} (a b : A) : Ok a = Ok b -> a = b.
Proof. intros H. injection H as H. exact H. Qed.

Lemma byte_val_of_Z (z : Z) : 0 <= z < 256 -> byte_val (byte_of_Z z) = z.
Proof.
  intros Hz. unfold byte_of_Z, byte_val.
  destruct (Byte.of_N (Z.to_N z)) as [b |] eqn:Hb.
  - apply Byte.to_of_N in Hb. rewrite Hb. lia.
  - apply Byte.of_N_None_iff in Hb. lia.
Qed.

Lemma byte_val_inj (a b : byte) : byte_val a = byte_val b -> a = b.
Proof.
  unfold byte_val. intros Hab.
  assert (Hn : Byte.to_N a = Byte.to_N b) by lia.
  pose proof (Byte.of_to_N a) as Ha. rewrite Hn, Byte.of_to_N in Ha.
  injection Ha as ->. reflexivity.
Qed.

(** Whatever an 8-byte block holds, the decoded fields are in range. *)
Lemma parse_touch_ranges (tdata : bytes) (t : Touch.t) :
  length tdata = 8%nat -> parse_touch tdata 0 = Ok t -> in_declared_ranges t.
Proof.
  intros Hlen.
  destruct tdata as [| c0 [| c1 [| c2 [| c3 [| c4 [| c5 [| c6 [| c7 [| c8 rest]]]]]]]]];
    try discriminate Hlen.
  rewrite parse_touch_bytes_arith. intros Ht. apply Ok_inj in Ht. subst t.
  pose proof (byte_val_range c0). pose proof (byte_val_range c1).
  pose proof (byte_val_range c2). pose proof (byte_val_range c3).
  pose proof (byte_val_range c4). pose proof (byte_val_range c5).
  pose proof (byte_val_range c6). pose proof (byte_val_range c7).
  unfold in_declared_ranges.
  cbn [Touch.x Touch.y Touch.major Touch.minor Touch.size
       Touch.id Touch.orientation Touch.state].
  Z.div_mod_to_equations. lia.
Qed.

(** X1. For a non-negative offset [parse_touch] returns a touch exactly
    when the 8 bytes from [offset] lie inside the buffer; otherwise the
    slice is short and indexing it raises [IndexError]. *)
Theorem parse_touch_ok_iff_in_bounds (data : bytes) (offset : Z) :
  0 <= offset ->
  (offset + 8 <= len data ->
   exists t : Touch.t, parse_touch data offset = Ok t /\ in_declared_ranges t) /\
  (len data < offset + 8 -> parse_touch data offset = Raise IndexError).
Proof.
  intros H0. split.
  - intros H8.
    destruct (parse_touch_in_bounds data offset H0 H8) as [t [Ht _]].
    exists t. split; [exact Ht |].
    apply (parse_touch_ranges (block data offset)).
    + apply block_in_bounds; assumption.
    + rewrite <- parse_touch_block. exact Ht.
  - intros Hshort. rewrite parse_touch_block.
    assert (Hlen : (length (block data offset) < 8)%nat).
    { unfold block, slice, slice_bound.
      pose proof (len_nonneg data) as Hn.
      destruct (Z.ltb_spec offset 0); [lia |].
      destruct (Z.ltb_spec (offset + 8) 0); [lia |].
      rewrite length_firstn, length_skipn. unfold len in *. lia. }
    destruct (block data offset)
      as [| c0 [| c1 [| c2 [| c3 [| c4 [| c5 [| c6 [| c7 rest]]]]]]]];
      cbn [length] in Hlen; try lia; reflexivity.
Qed.

(** Decoding an encoded touch gives it back. *)
Lemma encode_touch_decodes (t : Touch.t) :
  in_declared_ranges t -> parse_touch (encode_touch t) 0 = Ok t.
Proof.
  unfold in_declared_ranges, encode_touch.
  destruct t as [tid tx ty tmajor tminor tsize tori tstate].
  cbn [Touch.x Touch.y Touch.major Touch.minor Touch.size
       Touch.id Touch.orientation Touch.state].
  intros (Hx & Hy & Hmaj & Hmin & Hsz & Hor & Hid & Hst).
  rewrite parse_touch_bytes_arith.
  rewrite !byte_val_of_Z by (Z.div_mod_to_equations; lia).
  f_equal. f_equal; Z.div_mod_to_equations; lia.
Qed.

(** X2. The decoder is onto its declared ranges and undoes the encoder:
    every touch whose fields are in range is what [parse_touch] returns
    on the block that carries those fields. *)
Theorem parse_touch_encode_touch (t : Touch.t) :
  in_declared_ranges t -> parse_touch (encode_touch t) 0 = Ok t.
Proof.
  intros Hr. apply encode_touch_decodes. exact Hr.
Qed.

(** X3. Two 8-byte blocks decode to the same touch exactly when they
    agree on bytes 0..6 and on the high half of byte 7: the decoder loses
    nothing but the reserved low half of byte 7. *)
Theorem parse_touch_injective (tdata tdata' : bytes) :
  length tdata = 8%nat -> length tdata' = 8%nat ->
  (parse_touch tdata 0 = parse_touch tdata' 0 <->
   firstn 7 tdata = firstn 7 tdata' /\
   byte_at tdata 7 / 16 = byte_at tdata' 7 / 16).
Proof.
  intros Hlen Hlen'.
  destruct tdata as [| c0 [| c1 [| c2 [| c3 [| c4 [| c5 [| c6 [| c7 [| c8 rest]]]]]]]]];
    try discriminate Hlen.
  destruct tdata' as [| d0 [| d1 [| d2 [| d3 [| d4 [| d5 [| d6 [| d7 [| d8 rest']]]]]]]]];
    try discriminate Hlen'.
  rewrite !parse_touch_bytes_arith. unfold byte_at. cbn [firstn nth].
  pose proof (byte_val_range c0). pose proof (byte_val_range c1).
  pose proof (byte_val_range c2). pose proof (byte_val_range c5).
  pose proof (byte_val_range c6).
  pose proof (byte_val_range d0). pose proof (byte_val_range d1).
  pose proof (byte_val_range d2). pose proof (byte_val_range d5).
  pose proof (byte_val_range d6).
  split.
  - intros Heq. apply Ok_inj in Heq.
    pose proof (f_equal Touch.id Heq) as Hid.
    pose proof (f_equal Touch.x Heq) as Hx.
    pose proof (f_equal Touch.y Heq) as Hy.
    pose proof (f_equal Touch.major Heq) as Hmaj.
    pose proof (f_equal Touch.minor Heq) as Hmin.
    pose proof (f_equal Touch.size Heq) as Hsz.
    pose proof (f_equal Touch.orientation Heq) as Hor.
    pose proof (f_equal Touch.state Heq) as Hst.
    cbn [Touch.x Touch.y Touch.major Touch.minor Touch.size
         Touch.id Touch.orientation Touch.state] in *.
    clear Heq. split; [| exact Hst].
    assert (E0 : byte_val c0 = byte_val d0) by (Z.div_mod_to_equations; lia).
    assert (E1 : byte_val c1 = byte_val d1) by (Z.div_mod_to_equations; lia).
    assert (E2 : byte_val c2 = byte_val d2) by (Z.div_mod_to_equations; lia).
    assert (E5 : byte_val c5 = byte_val d5) by (Z.div_mod_to_equations; lia).
    assert (E6 : byte_val c6 = byte_val d6) by (Z.div_mod_to_equations; lia).
    rewrite (byte_val_inj _ _ E0), (byte_val_inj _ _ E1), (byte_val_inj _ _ E2),
      (byte_val_inj _ _ Hmaj), (byte_val_inj _ _ Hmin),
      (byte_val_inj _ _ E5), (byte_val_inj _ _ E6).
    reflexivity.
  - intros [Hfirst Hst].
    injection Hfirst as -> -> -> -> -> -> ->. rewrite Hst. reflexivity.
Qed.

(** ** More on the report decoder *)

Lemma decoded_slots_ranges (data : bytes) (t : Touch.t) :
  In t (decoded_slots data) -> in_declared_ranges t.
Proof.
  intros Ht. apply In_decoded_slots in Ht as [i [Hi Hp]].
  destruct (slot_in_bounds data i Hi) as [H0 H8].
  apply (parse_touch_ranges (block data (slot_offset i)));
    [apply block_in_bounds; assumption | exact Hp].
Qed.

(** X4. Every touch that [parse_report] returns has all its fields in
    their declared ranges, and a report of at most 64 bytes (what the
    driver reads) yields at most 6 touches. *)
Theorem parse_report_ranges (data : bytes) (ts : list Touch.t) :
  parse_report data = Ok ts ->
  Forall in_declared_ranges ts /\ (len data <= 64 -> len ts <= 6).
Proof.
  rewrite parse_report_filter. intros Hts. apply Ok_inj in Hts. subst ts.
  split.
  - apply Forall_forall. intros t Ht. apply filter_In in Ht as [Ht _].
    apply (decoded_slots_ranges data). exact Ht.
  - intros H64.
    pose proof (filter_length_le active (decoded_slots data)) as Hle.
    pose proof (decoded_slots_length data) as Hlen.
    unfold len in *. unfold num_slots, len in Hlen.
    Z.div_mod_to_equations. lia.
Qed.

(** The slice of a buffer behind a prefix is the slice of the rest. *)
Lemma slice_app_prefix {A : Type} (h body : list A) (lo hi : Z) :
  len h <= lo -> lo <= hi ->
  slice (h ++ body) lo hi = slice body (lo - len h) (hi - len h).
Proof.
  intros Hlo Hhi. pose proof (len_nonneg h) as Hh.
  pose proof (len_nonneg body) as Hb.
  unfold slice, slice_bound.
  assert (Hlen : len (h ++ body) = len h + len body)
    by (unfold len; rewrite length_app; lia).
  rewrite Hlen.
  destruct (Z.ltb_spec lo 0); [lia |].
  destruct (Z.ltb_spec hi 0); [lia |].
  destruct (Z.ltb_spec (lo - len h) 0); [lia |].
  destruct (Z.ltb_spec (hi - len h) 0); [lia |].
  rewrite skipn_app.
  rewrite (skipn_all2 h) by (unfold len in *; lia).
  cbn [app]. f_equal; [lia |]. f_equal. unfold len in *. lia.
Qed.

(** X5. [parse_report] never looks at the 14 header bytes: two reports
    with the same bytes after the header decode to the same touches. *)
Theorem parse_report_header_ignored (header header' body : bytes) :
  length header = 14%nat -> length header' = 14%nat ->
  parse_report (header ++ body) = parse_report (header' ++ body).
Proof.
  intros Hh Hh'. rewrite !parse_report_filter. do 2 f_equal.
  assert (Hslots : slot_offsets (header ++ body) = slot_offsets (header' ++ body)).
  { unfold slot_offsets, num_slots, len. rewrite !length_app, Hh, Hh'. reflexivity. }
  unfold decoded_slots. rewrite Hslots. apply flat_map_ext_In.
  intros off Hoff. unfold slot_offsets in Hoff.
  apply in_map_iff in Hoff as [i [<- Hi]]. apply In_range in Hi.
  unfold decode_at, block, slot_offset.
  rewrite !slice_app_prefix by (unfold len; lia).
  unfold len. rewrite Hh, Hh'. reflexivity.
Qed.

Lemma range_succ (n : Z) : 0 <= n -> range (n + 1) = range n ++ [n].
Proof.
  intros Hn. unfold range.
  replace (Z.to_nat (n + 1)) with (Z.to_nat n + 1)%nat by lia.
  rewrite seq_app, map_app. cbn [seq map Nat.add]. do 3 f_equal. lia.
Qed.

(** One more block at the end of a report of whole blocks. *)
Lemma parse_report_snoc (data blk : bytes) :
  14 <= len data -> (len data - 14) mod 8 = 0 -> length blk = 8%nat ->
  exists (ts : list Touch.t) (t : Touch.t),
    parse_report data = Ok ts /\ parse_touch blk 0 = Ok t /\
    parse_report (data ++ blk) =
    Ok (ts ++ (if (Touch.state t >? 0) || (Touch.size t >? 0) then [t] else [])).
Proof.
  intros H14 Hmod Hblk.
  destruct (parse_touch_ok blk Hblk) as [t Ht].
  exists (filter active (decoded_slots data)), t.
  split; [apply parse_report_filter |]. split; [exact Ht |].
  pose proof (num_slots_long data H14) as Hn.
  assert (Hlen : len data = 14 + 8 * num_slots data)
    by (unfold num_slots; Z.div_mod_to_equations; lia).
  assert (Happ : len (data ++ blk) = len data + 8)
    by (unfold len; rewrite length_app, Hblk; lia).
  assert (Hslots : num_slots (data ++ blk) = num_slots data + 1).
  { unfold num_slots at 1. rewrite Happ, Hlen.
    replace (14 + 8 * num_slots data + 8 - 14) with ((num_slots data + 1) * 8) by lia.
    apply Z.div_mul. lia. }
  assert (Hfirst : firstn (length data) (data ++ blk) = data).
  { rewrite firstn_app, Nat.sub_diag, firstn_all. cbn [firstn]. apply app_nil_r. }
  rewrite parse_report_filter. f_equal.
  unfold decoded_slots at 1, slot_offsets at 1.
  rewrite Hslots, range_succ, map_app, flat_map_app, filter_app by exact Hn.
  f_equal.
  - f_equal. unfold decoded_slots, slot_offsets. apply flat_map_ext_In.
    intros off Hoff. apply in_map_iff in Hoff as [i [<- Hi]].
    apply In_range in Hi. destruct (slot_in_bounds data i Hi) as [H0 H8].
    rewrite <- (decode_at_firstn (data ++ blk) (length data)).
    + rewrite Hfirst. reflexivity.
    + exact H0.
    + rewrite Hfirst. exact H8.
  - cbn [map flat_map]. rewrite app_nil_r.
    assert (Hlast : block (data ++ blk) (slot_offset (num_slots data)) = blk).
    { unfold block, slot_offset.
      rewrite slice_app_prefix by lia.
      replace (14 + num_slots data * 8 - len data) with 0 by lia.
      replace (14 + num_slots data * 8 + 8 - len data) with 8 by lia.
      apply slice_whole. unfold len. lia. }
    unfold decode_at. rewrite Hlast, Ht. cbn [filter]. reflexivity.
Qed.

(** X6. Appending one more 8-byte block to a report made of whole blocks
    appends that block's touch to the result if it is active, and leaves
    the result as it was if it is not. *)
Theorem parse_report_app_block (data blk : bytes) :
  14 <= len data -> (len data - 14) mod 8 = 0 -> length blk = 8%nat ->
  exists (ts : list Touch.t) (t : Touch.t),
    parse_report data = Ok ts /\ parse_touch blk 0 = Ok t /\
    parse_report (data ++ blk) =
    Ok (ts ++ (if (Touch.state t >? 0) || (Touch.size t >? 0) then [t] else [])).
Proof.
  intros H14 Hmod Hblk. apply parse_report_snoc; assumption.
Qed.

Lemma length_encode_touches (ts : list Touch.t) :
  len (flat_map encode_touch ts) = 8 * len ts.
Proof.
  induction ts as [| t ts IH]; [reflexivity |].
  cbn [flat_map]. unfold len in *. rewrite length_app.
  cbn [encode_touch length]. lia.
Qed.

(** X14. Report round trip: a 14-byte header followed by the blocks of
    any touches that are in range and active decodes to exactly those
    touches, in order. *)
Theorem parse_report_encode_touches (header : bytes) (ts : list Touch.t) :
  length header = 14%nat ->
  Forall (fun t => in_declared_ranges t /\
                   (Touch.state t > 0 \/ Touch.size t > 0)) ts ->
  parse_report (header ++ flat_map encode_touch ts) = Ok ts.
Proof.
  intros Hh. induction ts as [| t ts IH] using rev_ind; intros Hall.
  - cbn [flat_map]. rewrite app_nil_r. unfold parse_report.
    unfold len. rewrite Hh. reflexivity.
  - apply Forall_app in Hall as [Hts Ht].
    apply Forall_inv in Ht as [Hr Ha].
    rewrite flat_map_app. cbn [flat_map]. rewrite app_nil_r, app_assoc.
    assert (Hlen : len (header ++ flat_map encode_touch ts) = 14 + 8 * len ts).
    { unfold len at 1. rewrite length_app, Hh.
      pose proof (length_encode_touches ts) as Hl. unfold len in Hl at 1. lia. }
    destruct (parse_report_snoc (header ++ flat_map encode_touch ts)
                (encode_touch t)) as (ts0 & t0 & H0 & Ht0 & Happ).
    + pose proof (len_nonneg ts). lia.
    + rewrite Hlen. replace (14 + 8 * len ts - 14) with (len ts * 8) by lia.
      apply Z.mod_mul. lia.
    + reflexivity.
    + rewrite (IH Hts) in H0. apply Ok_inj in H0. subst ts0.
      rewrite (encode_touch_decodes t Hr) in Ht0. apply Ok_inj in Ht0. subst t0.
      rewrite Happ. apply active_iff in Ha. unfold active in Ha. rewrite Ha.
      reflexivity.
Qed.

(** ** More on the gesture detector *)

Lemma detect_gesture_cases (touches : list Touch.t) (now : float)
    (st : GestureState.t) :
  detect_case touches now st (detect_gesture touches now st).
Proof.
  destruct (now - GestureState.last_gesture_time st <? 0.5)%float eqn:Hc.
  - rewrite (detect_gesture_cooldown _ _ _ Hc). apply case_cooldown. exact Hc.
  - destruct touches as [| t ts].
    + rewrite (detect_gesture_empty now st Hc). apply case_reset; [exact Hc | reflexivity].
    + assert (Hne : t :: ts <> []) by discriminate.
      destruct (GestureState.start_x st) as [ax |] eqn:Hx.
      * destruct (GestureState.start_y st) as [ay |] eqn:Hy.
        -- destruct (GestureState.start_time st) as [at_ |] eqn:Ht.
           ++ assert (Ha : anchored st ax ay at_) by (repeat split; assumption).
              rewrite (detect_gesture_anchored _ now st ax ay at_ Hc Hne Ha).
              destruct (swipe_condition _ _ _) eqn:Hs.
              ** apply (case_swipe _ _ _ ax ay at_); assumption.
              ** destruct (0.4 <? now - at_)%float eqn:Hgt.
                 --- apply (case_rebase _ _ _ ax ay at_); assumption.
                 --- apply (case_wait _ _ _ ax ay at_); assumption.
           ++ rewrite (detect_gesture_broken_anchor _ now st ax Hc Hne Hx (or_intror Ht)).
              apply (case_broken _ _ _ ax); try assumption. right. exact Ht.
        -- rewrite (detect_gesture_broken_anchor _ now st ax Hc Hne Hx (or_introl Hy)).
           apply (case_broken _ _ _ ax); try assumption. left. exact Hy.
      * rewrite (detect_gesture_establish _ now st Hc Hne Hx).
        apply case_establish; assumption.
Qed.

(** What a call that returns leaves behind. *)
Lemma detect_gesture_outcome (touches : list Touch.t) (now : float)
    (st st' : GestureState.t) (r : option string) :
  detect_gesture touches now st = Ok (r, st') ->
  (r = None /\
   GestureState.last_gesture_time st' = GestureState.last_gesture_time st) \/
  ((r = Some "swipe_left"%string \/ r = Some "swipe_right"%string) /\
   GestureState.last_gesture_time st' = now /\ no_anchor st' /\
   cooldown_passed now st /\
   exists ax ay at_, anchored st ax ay at_).
Proof.
  intros Hd. pose proof (detect_gesture_cases touches now st) as Hcase.
  rewrite Hd in Hcase.
  inversion Hcase; subst; try (left; split; reflexivity).
  right. repeat split; try assumption.
  - destruct (avg_x touches - ax >? 0); [right | left]; reflexivity.
  - exists ax, ay, at_. assumption.
Qed.

(** X7. [detect_gesture] raises exactly when the cooldown has passed,
    there are touches, and start_x is set while start_y or start_time is
    not; the exception is then a [TypeError]. *)
Theorem detect_gesture_raises_iff (touches : list Touch.t) (now : float)
    (st : GestureState.t) :
  ((exists e, detect_gesture touches now st = Raise e) <->
   cooldown_passed now st /\ touches <> [] /\
   GestureState.start_x st <> None /\
   (GestureState.start_y st = None \/ GestureState.start_time st = None)) /\
  (forall e, detect_gesture touches now st = Raise e -> e = TypeError).
Proof.
  pose proof (detect_gesture_cases touches now st) as Hcase. split; [split |].
  - intros [e He]. rewrite He in Hcase. inversion Hcase; subst.
    repeat split; try assumption. congruence.
  - intros (Hc & Hne & Hx & Hbad).
    destruct (GestureState.start_x st) as [ax |] eqn:Hsx; [| contradiction].
    exists TypeError. apply (detect_gesture_broken_anchor _ _ _ ax); assumption.
  - intros e He. rewrite He in Hcase. inversion Hcase; subst. reflexivity.
Qed.

(** X8. A call that returns gives nothing, swipe_left or swipe_right.
    last_gesture_time changes only when a gesture is returned, and is then
    the time of the call; a gesture is returned only past the cooldown,
    from a state with an anchor, and leaves no anchor. *)
Theorem detect_gesture_emission_frame (touches : list Touch.t) (now : float)
    (st st' : GestureState.t) (r : option string) :
  detect_gesture touches now st = Ok (r, st') ->
  (r = None \/ r = Some "swipe_left"%string \/ r = Some "swipe_right"%string) /\
  (r = None ->
   GestureState.last_gesture_time st' = GestureState.last_gesture_time st) /\
  (r <> None ->
   GestureState.last_gesture_time st' = now /\ no_anchor st' /\
   cooldown_passed now st /\ touches <> [] /\
   GestureState.finger_count st' = GestureState.finger_count st /\
   exists ax ay at_, anchored st ax ay at_).
Proof.
  intros Hd. pose proof (detect_gesture_cases touches now st) as Hcase.
  rewrite Hd in Hcase.
  inversion Hcase; subst;
    try (split; [left; reflexivity |];
         split; [reflexivity | intros Hr; contradiction Hr; reflexivity]).
  split; [| split].
  - right. destruct (avg_x touches - ax >? 0); [right | left]; reflexivity.
  - intros Hr. destruct (avg_x touches - ax >? 0); discriminate Hr.
  - intros _. repeat split; try assumption.
    exists ax, ay, at_. assumption.
Qed.

(** Without an anchor a call returns nothing. *)
Lemma detect_gesture_no_anchor (touches : list Touch.t) (now : float)
    (st : GestureState.t) :
  GestureState.start_x st = None ->
  exists st', detect_gesture touches now st = Ok (None, st').
Proof.
  intros Hx. pose proof (detect_gesture_cases touches now st) as Hcase.
  inversion Hcase as [ | | | ax ? ? Hsx | ax ay at_ ? ? Ha | ax ay at_ ? ? Ha
                       | ax ay at_ ? ? Ha ];
    try (eexists; reflexivity);
    try (rewrite Hx in Hsx; discriminate Hsx);
    destruct Ha as (Hsx & _); rewrite Hx in Hsx; discriminate Hsx.
Qed.

(** X9. A gesture needs an anchor from an earlier call: a call on a state
    without start_x returns nothing, so the first call on
    [GestureState()] returns nothing, and the call that follows one that
    returned a gesture returns nothing, whatever its touches and time. *)
Theorem detect_gesture_never_twice_in_a_row (touches touches' : list Touch.t)
    (now now' : float) (st st1 : GestureState.t) (g : string) :
  detect_gesture touches now st = Ok (Some g, st1) ->
  (exists st2, detect_gesture touches' now' st1 = Ok (None, st2)) /\
  (exists st0, detect_gesture touches now GestureState.default = Ok (None, st0)) /\
  GestureState.start_x st <> None.
Proof.
  intros Hd. split; [| split].
  - destruct (detect_gesture_outcome _ _ _ _ _ Hd)
      as [[Hr _] | (_ & _ & (Hx & _) & _)]; [discriminate Hr |].
    apply detect_gesture_no_anchor. exact Hx.
  - apply detect_gesture_no_anchor. reflexivity.
  - intros Hx. destruct (detect_gesture_no_anchor touches now st Hx) as [st' Hn].
    rewrite Hn in Hd. discriminate Hd.
Qed.

(** X10. Debouncing over a whole run: the calls of a run that return a
    gesture have clock readings each not within 0.5 of the one before
    (the first not within 0.5 of the initial last_gesture_time), and
    last_gesture_time ends as the reading of the last of them. *)
Theorem detect_all_emissions_spaced (polls : list (list Touch.t * float)) :
  forall (st st' : GestureState.t) (rs : list (option string)),
    detect_all polls st = Ok (rs, st') ->
    length rs = length polls /\
    spaced (GestureState.last_gesture_time st) (emission_times polls rs) /\
    GestureState.last_gesture_time st' =
    last_time (GestureState.last_gesture_time st) (emission_times polls rs).
Proof.
  induction polls as [| [touches now] polls IH]; intros st st' rs Hrun.
  - cbn in Hrun. apply Ok_inj in Hrun. injection Hrun as <- <-.
    repeat split.
  - cbn [detect_all] in Hrun.
    destruct (detect_gesture touches now st) as [[r st1] | e] eqn:Hd;
      [| discriminate Hrun].
    cbn [bind snd fst] in Hrun.
    destruct (detect_all polls st1) as [[rs1 st2] | e] eqn:Hrest;
      [| discriminate Hrun].
    cbn [bind snd fst] in Hrun. apply Ok_inj in Hrun.
    injection Hrun as <- <-.
    destruct (IH st1 st2 rs1 Hrest) as (Hlen & Hsp & Hlast).
    destruct (detect_gesture_outcome _ _ _ _ _ Hd)
      as [[-> Hsame] | ([-> | ->] & Hnow & _ & Hc & _)];
      cbn [emission_times spaced last_time length].
    + rewrite Hsame in Hsp, Hlast.
      repeat split; [congruence | exact Hsp | exact Hlast].
    + rewrite Hnow in Hsp, Hlast.
      repeat split; [congruence | exact Hc | exact Hsp | exact Hlast].
    + rewrite Hnow in Hsp, Hlast.
      repeat split; [congruence | exact Hc | exact Hsp | exact Hlast].
Qed.

(** ** The centroid *)

Lemma fold_left_add_bounds (l : list Z) (lo hi acc : Z) :
  (forall v, In v l -> lo <= v <= hi) ->
  acc + len l * lo <= fold_left Z.add l acc <= acc + len l * hi.
Proof.
  revert acc. induction l as [| v l IH]; intros acc Hb.
  - cbn. unfold len. cbn. lia.
  - cbn [fold_left].
    pose proof (Hb v (or_introl eq_refl)) as Hv.
    pose proof (IH (acc + v) (fun w Hw => Hb w (or_intror Hw))) as Hrec.
    unfold len in *. cbn [length]. lia.
Qed.

Lemma floor_mean_bounds (l : list Z) (lo hi : Z) :
  l <> [] -> (forall v, In v l -> lo <= v <= hi) ->
  lo <= sum l / len l <= hi.
Proof.
  intros Hne Hb. pose proof (len_pos l Hne) as Hpos.
  pose proof (fold_left_add_bounds l lo hi 0 Hb) as Hs. fold (sum l) in Hs.
  split.
  - apply Z.div_le_lower_bound; lia.
  - apply Z.div_le_upper_bound; lia.
Qed.

(** X11. The centroid lies within the span of the touches: if every
    touch has x in [xlo, xhi] and y in [ylo, yhi] then so has the
    centroid.  So the centroid of the touches of a decoded report lies in
    0..4095 in both coordinates. *)
Theorem centroid_within_touches :
  (forall (touches : list Touch.t) (xlo xhi ylo yhi : Z),
      touches <> [] ->
      (forall t, In t touches ->
                 xlo <= Touch.x t <= xhi /\ ylo <= Touch.y t <= yhi) ->
      xlo <= avg_x touches <= xhi /\ ylo <= avg_y touches <= yhi) /\
  (forall (data : bytes) (touches : list Touch.t),
      parse_report data = Ok touches -> touches <> [] ->
      0 <= avg_x touches <= 4095 /\ 0 <= avg_y touches <= 4095).
Proof.
  assert (Hgen : forall (touches : list Touch.t) (xlo xhi ylo yhi : Z),
             touches <> [] ->
             (forall t, In t touches ->
                        xlo <= Touch.x t <= xhi /\ ylo <= Touch.y t <= yhi) ->
             xlo <= avg_x touches <= xhi /\ ylo <= avg_y touches <= yhi).
  { intros touches xlo xhi ylo yhi Hne Hb.
    assert (Hlen : forall f : Touch.t -> Z, len (map f touches) = len touches)
      by (intros f; unfold len; rewrite length_map; reflexivity).
    assert (Hmne : forall f : Touch.t -> Z, map f touches <> [])
      by (intros f; destruct touches; [contradiction | discriminate]).
    unfold avg_x, avg_y. rewrite <- (Hlen Touch.x) at 1 2.
    rewrite <- (Hlen Touch.y). split.
    - apply floor_mean_bounds; [apply Hmne |].
      intros v Hv. apply in_map_iff in Hv as [t [<- Ht]]. apply (Hb t Ht).
    - apply floor_mean_bounds; [apply Hmne |].
      intros v Hv. apply in_map_iff in Hv as [t [<- Ht]]. apply (Hb t Ht). }
  split; [exact Hgen |].
  intros data touches Hp Hne. apply Hgen; [exact Hne |].
  intros t Ht. rewrite parse_report_filter in Hp. apply Ok_inj in Hp. subst touches.
  apply filter_In in Ht as [Ht _].
  pose proof (decoded_slots_ranges data t Ht) as Hr.
  unfold in_declared_ranges in Hr. tauto.
Qed.

(** ** The driver loop *)

Lemma main_iteration_wf (DEBUG : bool) (env : answers) (st : GestureState.t) :
  anchor_wf st ->
  exists (outs : list output) (st' : GestureState.t),
    main_iteration DEBUG env st = Ok (outs, st') /\ anchor_wf st'.
Proof.
  intros Hwf. unfold main_iteration.
  destruct (read env) as [| [| b data]].
  - exists [], st. split; [reflexivity | exact Hwf].
  - exists [], st. split; [reflexivity | exact Hwf].
  - rewrite parse_report_filter. cbn [bind].
    destruct (detect_gesture_wf_step
                (filter active (decoded_slots (b :: data))) (clock env) st Hwf)
      as (r & st' & Hd & Hwf').
    rewrite Hd. cbn [bind fst snd].
    destruct (gesture_is r "swipe_left");
      [| destruct (gesture_is r "swipe_right")];
      eexists _, st'; (split; [reflexivity | exact Hwf']).
Qed.

(** X12. The driver loop never raises: from [GestureState()], and from
    any state whose anchor fields are all absent or all present, any
    number of iterations on any reads, clock readings and [send_key]
    results runs through, and ends in such a state. *)
Theorem main_loop_never_raises (DEBUG : bool) (envs : list answers) :
  (forall st : GestureState.t,
      anchor_wf st ->
      exists (outs : list output) (st' : GestureState.t),
        main_loop DEBUG envs st = Ok (outs, st') /\ anchor_wf st') /\
  (exists (outs : list output) (st' : GestureState.t),
      main_loop DEBUG envs GestureState.default = Ok (outs, st')).
Proof.
  assert (Hgen : forall st : GestureState.t,
             anchor_wf st ->
             exists (outs : list output) (st' : GestureState.t),
               main_loop DEBUG envs st = Ok (outs, st') /\ anchor_wf st').
  { induction envs as [| env envs IH]; intros st Hwf.
    - exists [], st. split; [reflexivity | exact Hwf].
    - destruct (main_iteration_wf DEBUG env st Hwf) as (o1 & st1 & H1 & Hwf1).
      destruct (IH st1 Hwf1) as (o2 & st2 & H2 & Hwf2).
      exists (o1 ++ o2), st2. cbn [main_loop]. rewrite H1. cbn [bind fst snd].
      rewrite H2. cbn [bind fst snd]. split; [reflexivity | exact Hwf2]. }
  split; [exact Hgen |].
  destruct (Hgen GestureState.default) as (outs & st' & Hrun & _).
  - left. repeat split.
  - exists outs, st'. exact Hrun.
Qed.

Lemma key_calls_debug (touches : list Touch.t) :
  key_calls (map (fun t => Print (debug_line t)) touches) = [].
Proof.
  unfold key_calls. induction touches as [| t ts IH]; [reflexivity |].
  cbn [map filter is_send_key]. exact IH.
Qed.

(** X13. An iteration whose read fails or returns no bytes does nothing
    and leaves the state as it was.  An iteration on a non-empty report
    ends in the state [detect_gesture] gives on the decoded touches,
    whatever DEBUG is and whether [send_key] succeeds, and calls
    [send_key] once with alt+Right for swipe_left, once with alt+Left for
    swipe_right, and not at all when no gesture is returned. *)
Theorem main_iteration_keys (DEBUG : bool) (env : answers) (st : GestureState.t) :
  (read env = ReadFailed \/ read env = ReadBytes [] ->
   main_iteration DEBUG env st = Ok ([], st)) /\
  (forall (data : bytes) (outs : list output) (st' : GestureState.t),
      read env = ReadBytes data -> data <> [] ->
      main_iteration DEBUG env st = Ok (outs, st') ->
      exists (touches : list Touch.t) (r : option string),
        parse_report data = Ok touches /\
        detect_gesture touches (clock env) st = Ok (r, st') /\
        key_calls outs =
        match r with
        | None => []
        | Some g =>
            [SendKey "alt" (if String.eqb g "swipe_left"
                            then "Right" else "Left")]
        end).
Proof.
  split.
  - intros [Hr | Hr]; unfold main_iteration; rewrite Hr; reflexivity.
  - intros data outs st' Hr Hne Hrun. unfold main_iteration in Hrun.
    rewrite Hr in Hrun. destruct data as [| b data]; [contradiction |].
    rewrite parse_report_filter in Hrun. cbn [bind] in Hrun.
    set (touches := filter active (decoded_slots (b :: data))) in *.
    exists touches.
    destruct (detect_gesture touches (clock env) st) as [[r st1] | e] eqn:Hd;
      [| discriminate Hrun].
    cbn [bind fst snd] in Hrun. exists r.
    split; [apply parse_report_filter |].
    destruct (detect_gesture_outcome _ _ _ _ _ Hd)
      as [[-> _] | ([-> | ->] & _)];
      cbn in Hrun; apply Ok_inj in Hrun; injection Hrun as <- <-;
      (split; [reflexivity |]).
    + destruct (DEBUG && negb (len touches =? 0));
        [apply key_calls_debug | reflexivity].
    + unfold key_calls. rewrite filter_app. fold (key_calls).
      destruct (DEBUG && negb (len touches =? 0));
        [fold (key_calls (map (fun t => Print (debug_line t)) touches));
         rewrite key_calls_debug |];
        destruct (key_sent env); reflexivity.
    + unfold key_calls. rewrite filter_app.
      destruct (DEBUG && negb (len touches =? 0));
        [fold (key_calls (map (fun t => Print (debug_line t)) touches));
         rewrite key_calls_debug |];
        destruct (key_sent env); reflexivity.
Qed.

(** * The further statements at sample inputs *)

Lemma parse_touch_ok_iff_in_bounds_witness :
  (exists t : Touch.t,
      parse_touch sample_report 22 = Ok t /\ in_declared_ranges t) /\
  parse_touch sample_report 23 = Raise IndexError.
Proof.
  split.
  - apply (proj1 (parse_touch_ok_iff_in_bounds sample_report 22 ltac:(lia))).
    vm_compute. discriminate.
  - apply (proj2 (parse_touch_ok_iff_in_bounds sample_report 23 ltac:(lia))).
    vm_compute. reflexivity.
Defined.

Lemma parse_touch_encode_touch_witness :
  parse_touch (encode_touch (touch_at 4095 0)) 0 = Ok (touch_at 4095 0).
Proof.
  apply (parse_touch_encode_touch (touch_at 4095 0)).
  unfold in_declared_ranges, touch_at. cbn. lia.
Defined.

Lemma parse_touch_injective_witness :
  parse_touch [x34; x12; x78; x05; x04; xc7; x0d; x40] 0 =
  parse_touch [x34; x12; x78; x05; x04; xc7; x0d; x4f] 0.
Proof.
  apply (proj2 (parse_touch_injective
                  [x34; x12; x78; x05; x04; xc7; x0d; x40]
                  [x34; x12; x78; x05; x04; xc7; x0d; x4f] eq_refl eq_refl)).
  split; reflexivity.
Defined.

Lemma parse_report_ranges_witness :
  Forall in_declared_ranges [touch_at 0x234 0x178; touch_at 0x234 0x178] /\
  (len sample_report <= 64 ->
   len [touch_at 0x234 0x178; touch_at 0x234 0x178] <= 6).
Proof.
  apply (parse_report_ranges sample_report). reflexivity.
Defined.

Lemma parse_report_header_ignored_witness :
  parse_report (sample_header ++ sample_block ++ zero_block) =
  parse_report (repeat xff 14 ++ sample_block ++ zero_block).
Proof.
  apply (parse_report_header_ignored sample_header (repeat xff 14)
           (sample_block ++ zero_block)); reflexivity.
Defined.

Lemma parse_report_app_block_witness :
  exists (ts : list Touch.t) (t : Touch.t),
    parse_report sample_report = Ok ts /\ parse_touch zero_block 0 = Ok t /\
    parse_report (sample_report ++ zero_block) =
    Ok (ts ++ (if (Touch.state t >? 0) || (Touch.size t >? 0) then [t] else [])).
Proof.
  apply (parse_report_app_block sample_report zero_block).
  - vm_compute. discriminate.
  - reflexivity.
  - reflexivity.
Defined.

Lemma detect_gesture_emission_frame_witness :
  GestureState.last_gesture_time (GestureState.mk None None None 1 0.1) =
  0.1%float /\
  no_anchor (GestureState.mk None None None 1 0.1) /\
  cooldown_passed 0.1 (anchored_state 500 1000 0 (-1)).
Proof.
  destruct (detect_gesture_emission_frame
              [touch_at 750 1010] 0.1%float (anchored_state 500 1000 0 (-1))
              (GestureState.mk None None None 1 0.1)
              (Some "swipe_right"%string) eq_refl)
    as (_ & _ & Hemit).
  destruct (Hemit ltac:(discriminate)) as (Hl & Hn & Hc & _).
  split; [exact Hl | split; [exact Hn | exact Hc]].
Defined.

Lemma detect_gesture_never_twice_in_a_row_witness :
  exists st2 : GestureState.t,
    detect_gesture [touch_at 1000 1010] 0.7
      (GestureState.mk None None None 1 0.1) = Ok (None, st2).
Proof.
  apply (proj1 (detect_gesture_never_twice_in_a_row
                  [touch_at 750 1010] [touch_at 1000 1010] 0.1%float 0.7%float
                  (anchored_state 500 1000 0 (-1))
                  (GestureState.mk None None None 1 0.1)
                  "swipe_right"%string eq_refl)).
Defined.

Lemma detect_all_emissions_spaced_witness :
  length [None; Some "swipe_right"%string; None; Some "swipe_left"%string] = 4%nat /\
  spaced 0 [1.1%float; 1.8%float] /\
  GestureState.last_gesture_time (GestureState.mk None None None 1 1.8) =
  1.8%float.
Proof.
  apply (detect_all_emissions_spaced
           [([touch_at 0 0], 1%float); ([touch_at 300 0], 1.1%float);
            ([touch_at 300 0], 1.7%float); ([touch_at 0 0], 1.8%float)]
           GestureState.default (GestureState.mk None None None 1 1.8)
           [None; Some "swipe_right"%string; None; Some "swipe_left"%string]).
  reflexivity.
Defined.

Lemma centroid_within_touches_witness :
  (10 <= avg_x [touch_at 10 20; touch_at 13 21] <= 13 /\
   20 <= avg_y [touch_at 10 20; touch_at 13 21] <= 21) /\
  (0 <= avg_x [touch_at 0x234 0x178; touch_at 0x234 0x178] <= 4095 /\
   0 <= avg_y [touch_at 0x234 0x178; touch_at 0x234 0x178] <= 4095).
Proof.
  split.
  - apply (proj1 centroid_within_touches
             [touch_at 10 20; touch_at 13 21] 10 13 20 21).
    + discriminate.
    + intros t [<- | [<- | []]]; cbn; lia.
  - apply (proj2 centroid_within_touches sample_report).
    + reflexivity.
    + discriminate.
Defined.

Lemma main_loop_never_raises_witness :
  exists (outs : list output) (st' : GestureState.t),
    main_loop true
      [mk_answers (ReadBytes (report_at 500 1000)) 1 true;
       mk_answers ReadFailed 1.05 true;
       mk_answers (ReadBytes (report_at 750 1010)) 1.1 false]
      (anchored_state 0 0 0.5 0) = Ok (outs, st') /\
    anchor_wf st'.
Proof.
  apply (proj1 (main_loop_never_raises true
                  [mk_answers (ReadBytes (report_at 500 1000)) 1 true;
                   mk_answers ReadFailed 1.05 true;
                   mk_answers (ReadBytes (report_at 750 1010)) 1.1 false])).
  right. exists 0, 0, 0.5%float. repeat split.
Defined.

Lemma main_iteration_keys_witness :
  main_iteration true (mk_answers (ReadBytes []) 1.1 true)
    (anchored_state 500 1000 1 0) = Ok ([], anchored_state 500 1000 1 0) /\
  exists (touches : list Touch.t) (r : option string),
    parse_report (report_at 750 1010) = Ok touches /\
    detect_gesture touches 1.1 (anchored_state 500 1000 1 0) =
    Ok (r, GestureState.mk None None None 1 1.1) /\
    key_calls [Print "Touch: id=7 x=750 y=1010 state=4"%string;
               SendKey "alt" "Left"; Print "← Back"%string] =
    match r with
    | None => []
    | Some g =>
        [SendKey "alt" (if String.eqb g "swipe_left" then "Right" else "Left")]
    end.
Proof.
  split.
  - apply (proj1 (main_iteration_keys true (mk_answers (ReadBytes []) 1.1 true)
                    (anchored_state 500 1000 1 0))).
    right. reflexivity.
  - apply (proj2 (main_iteration_keys true
                    (mk_answers (ReadBytes (report_at 750 1010)) 1.1 true)
                    (anchored_state 500 1000 1 0))
             (report_at 750 1010)).
    + reflexivity.
    + discriminate.
    + reflexivity.
Defined.

Lemma parse_report_encode_touches_witness :
  parse_report
    (sample_header ++
     flat_map encode_touch [touch_at 500 1000; touch_at 4095 0; touch_at 500 1000]) =
  Ok [touch_at 500 1000; touch_at 4095 0; touch_at 500 1000].
Proof.
  apply (parse_report_encode_touches sample_header
           [touch_at 500 1000; touch_at 4095 0; touch_at 500 1000]).
  - reflexivity.
  - repeat constructor; unfold touch_at; cbn; lia.
Defined.
